(** * thunder_bot.py: a shallow embedding and its checked properties

    The script posts "did the Thunder win last night?" once a day: it
    resolves a target date, resolves the team id, fetches the game of that
    date, formats a fixed-template message and posts it.  The embedding
    below follows [src/thunder_bot.py] function by function.

    - Python [str] values are sequences of Unicode code points ([pystr]),
      so that [len] and the slice [tweet[:280]] count code points (the
      en dash of the score line is one character, not three bytes).
    - JSON objects of the stats provider are records whose fields are
      optional: [None] stands for an absent key, so that [d[k]] (KeyError
      when absent) and [d.get(k, default)] keep their difference.  A
      member that is present has the type the data model gives it: an
      integer for ids and scores, a string for names and the status.
    - Console output, HTTP requests, [sys.exit] and uncaught exceptions are
      explicit: a run is a trace of events together with an outcome.
    - The library functions [int] and [date.fromisoformat], whose reading
      of a string depends on the interpreter, come with the world, like the
      environment and the answers of the servers: the properties hold
      whatever strings they read. *)

From Stdlib Require Import ZArith Ascii String.
From stdpp Require Import base option list gmap strings pretty.

Local Open Scope Z_scope.

(** ** Python strings *)

Module Str.

(** A Python [str]: its code points, in order. *)
Definition pystr : Type := list N.

(** An ASCII literal of the source. *)
Definition lit (s : string) : pystr :=
  (λ a : ascii, N_of_ascii a) <$> list_ascii_of_string s.

Definition NL : pystr := [10%N].          (* "\n" *)
Definition EN_DASH : pystr := [8211%N].   (* U+2013 *)

(** [str(n)] for an [int]: decimal digits, with a leading minus sign. *)
Definition str_int (n : Z) : pystr := lit (pretty n).

(** [format(n, "0{w}d")] for a non-negative [n]: zero padded to width [w]. *)
Definition zfill (w : nat) (s : pystr) : pystr :=
  replicate (w - length s)%nat 48%N ++ s.

(** [str.lower].  Upper-case ASCII letters are mapped to lower case; the
    two code points outside ASCII whose lower-case form contains an ASCII
    letter are mapped as Python maps them (KELVIN SIGN to "k", LATIN
    CAPITAL LETTER I WITH DOT ABOVE to "i" followed by U+0307).  Every
    other code point outside ASCII is left as it is: its lower-case form
    is not ASCII either, so comparisons of the result with ASCII literals,
    the only use the script makes of [lower], are not affected. *)
Definition lower_char (c : N) : pystr :=
  if ((65 <=? c) && (c <=? 90))%N then [(c + 32)%N]
  else if (c =? 8490)%N then [107%N]
  else if (c =? 304)%N then [105%N; 775%N]
  else [c].

Definition lower (s : pystr) : pystr := s ≫= lower_char.

(** Truthiness of [os.getenv(...)]: [None] and [""] are falsy. *)
Definition truthy (v : option pystr) : bool :=
  match v with
  | Some (_ :: _) => true
  | _ => false
  end.

Definition is_digit (c : N) : bool := ((48 <=? c) && (c <=? 57))%N.
Definition digit_val (c : N) : Z := Z.of_N c - 48.

(** Value of a run of decimal digits, [None] if a character is no digit. *)
Fixpoint digits_val (acc : Z) (s : pystr) : option Z :=
  match s with
  | [] => Some acc
  | c :: s' => if is_digit c then digits_val (10 * acc + digit_val c) s' else None
  end.

(** A plain decimal numeral: an optional sign, then from 1 to 640 ASCII
    digits.  Every [int] of Python reads such a string, and reads this
    value.  What else [int] reads (white space around the numeral,
    underscores between digits, the decimal digits of other scripts, longer
    numerals) depends on the interpreter, its Unicode tables and its limit
    on digits: the function itself is a parameter of the world, below, and
    this reading only stands for it in sample runs. *)
Definition plain_digits (ds : pystr) : option Z :=
  if bool_decide (ds ≠ []) && (length ds <=? 640)%nat
  then digits_val 0 ds else None.

Definition plain_int (s : pystr) : option Z :=
  match s with
  | 43%N :: ds => plain_digits ds
  | 45%N :: ds => Z.opp <$> plain_digits ds
  | ds => plain_digits ds
  end.

End Str.

Export Str.

(** ** Calendar dates: [datetime.date], [datetime.datetime] *)

Module Cal.

Record date := Date { year : Z; month : Z; day : Z }.

(** An aware [datetime] in a fixed zone: its wall-clock reading. *)
Record datetime := DateTime { dt_date : date; hour : Z; minute : Z; second : Z }.

Definition MINYEAR : Z := 1.
Definition MAXYEAR : Z := 9999.

Definition is_leap (y : Z) : bool :=
  (y mod 4 =? 0) && (negb (y mod 100 =? 0) || (y mod 400 =? 0)).

Definition days_in_month (y m : Z) : Z :=
  if m =? 2 then (if is_leap y then 29 else 28)
  else if (m =? 4) || (m =? 6) || (m =? 9) || (m =? 11) then 30
  else 31.

(** The invariant of every [date] object. *)
Definition valid_date (d : date) : bool :=
  (MINYEAR <=? year d) && (year d <=? MAXYEAR) &&
  (1 <=? month d) && (month d <=? 12) &&
  (1 <=? day d) && (day d <=? days_in_month (year d) (month d)).

Definition days_before_year (y : Z) : Z :=
  let y' := y - 1 in y' * 365 + y' / 4 - y' / 100 + y' / 400.

(** Days of the year before the first day of month [m]. *)
Definition DAYS_BEFORE_MONTH : list Z :=
  [0; 0; 31; 59; 90; 120; 151; 181; 212; 243; 273; 304; 334].

Definition days_before_month (y m : Z) : Z :=
  nth (Z.to_nat m) DAYS_BEFORE_MONTH 0
    + (if (2 <? m) && is_leap y then 1 else 0).

(** [date.toordinal]: 0001-01-01 is day 1. *)
Definition toordinal (d : date) : Z :=
  days_before_year (year d) + days_before_month (year d) (month d) + day d.

(** The calendar day before [d]. *)
Definition pred_day (d : date) : date :=
  if 1 <? day d then Date (year d) (month d) (day d - 1)
  else if 1 <? month d then
    Date (year d) (month d - 1) (days_in_month (year d) (month d - 1))
  else Date (year d - 1) 12 31.

(** [dt - timedelta(days=1)]: the same wall-clock time on the previous
    calendar day (arithmetic on aware values is done on the wall-clock
    reading); [None] stands for the OverflowError raised when the result
    would precede 0001-01-01. *)
Definition sub_one_day (dt : datetime) : option datetime :=
  if toordinal (dt_date dt) - 1 <? 1 then None
  else Some (DateTime (pred_day (dt_date dt)) (hour dt) (minute dt) (second dt)).

(** [date_obj.strftime("%b")] in the C locale, which the script never
    changes. *)
Definition month_abbr (m : Z) : pystr :=
  lit (nth (Z.to_nat (m - 1))
         ["Jan"; "Feb"; "Mar"; "Apr"; "May"; "Jun";
          "Jul"; "Aug"; "Sep"; "Oct"; "Nov"; "Dec"]%string ""%string).

(** [date_obj.isoformat()], also [str(date_obj)]: YYYY-MM-DD. *)
Definition isoformat (d : date) : pystr :=
  zfill 4 (str_int (year d)) ++ lit "-" ++ zfill 2 (str_int (month d))
    ++ lit "-" ++ zfill 2 (str_int (day d)).

(** The extended form of an ISO date: exactly YYYY-MM-DD with ASCII
    digits, denoting a date that exists.  Every [date.fromisoformat] reads
    such a string, and reads this date; later interpreters read the basic
    and the week forms as well.  Like [int], the function itself is a
    parameter of the world, and this reading only stands for it in sample
    runs and in the round trip with [isoformat]. *)
Definition iso_extended (s : pystr) : option date :=
  match s with
  | [y1; y2; y3; y4; 45%N; m1; m2; 45%N; d1; d2] =>
      y ← digits_val 0 [y1; y2; y3; y4];
      m ← digits_val 0 [m1; m2];
      d ← digits_val 0 [d1; d2];
      if valid_date (Date y m d) then Some (Date y m d) else None
  | _ => None
  end.

End Cal.

Export Cal.

(** ** Runs: console output, HTTP requests, exits and exceptions *)

Module Run.

Inductive exn :=
| KeyError (key : string)
| OverflowError
| ConnectionError               (* requests could not get an answer *)
| HTTPError (status_code : Z).  (* raise_for_status *)

Inductive event :=
| Printed (line : pystr)
| HttpGet (url : pystr) (authorization : option pystr)
| HttpPost (url : pystr) (oauth1 : list (option pystr)) (text : pystr).

Inductive outcome (A : Type) :=
| Returned (a : A)
| Exited (code : Z)   (* sys.exit(code) *)
| Raised (e : exn).   (* an exception that nothing catches *)

Arguments Returned {A} a.
Arguments Exited {A} code.
Arguments Raised {A} e.

(** What a call did, in order, and how it ended. *)
Definition run (A : Type) : Type := list event * outcome A.

Definition trace {A} (r : run A) : list event := r.1.
Definition result {A} (r : run A) : outcome A := r.2.

#[global] Instance run_ret : MRet run := λ A a, ([], Returned a).

#[global] Instance run_bind : MBind run := λ A B f m,
  match m.2 with
  | Returned a => (m.1 ++ (f a).1, (f a).2)
  | Exited c => (m.1, Exited c)
  | Raised e => (m.1, Raised e)
  end.

Definition emit (e : event) : run unit := ([e], Returned ()).
Definition print (line : pystr) : run unit := emit (Printed line).
Definition sys_exit {A} (code : Z) : run A := ([], Exited code).
Definition raise {A} (e : exn) : run A := ([], Raised e).

(** Exit status of the interpreter after running a script body. *)
Definition exit_status {A} (r : run A) : Z :=
  match r.2 with
  | Returned _ => 0
  | Exited c => c
  | Raised _ => 1
  end.

Definition is_post (e : event) : bool :=
  match e with
  | HttpPost _ _ _ => true
  | _ => false
  end.

Definition is_request (e : event) : bool :=
  match e with
  | Printed _ => false
  | _ => true
  end.

End Run.

Export Run.

(** ** JSON objects of the provider, and the world around the script *)

(** [d[k]] and [d.get(k, default)] on a member that may be absent. *)
Definition getitem {A} (key : string) (member : option A) : run A :=
  match member with
  | Some v => mret v
  | None => raise (KeyError key)
  end.

Definition get {A} (member : option A) (default : A) : A :=
  match member with
  | Some v => v
  | None => default
  end.

Module Team.
Record dict := Dict {
  id : option Z;
  abbreviation : option pystr;
  full_name : option pystr;
  name : option pystr }.
End Team.

Module Game.
Record dict := Dict {
  home_team : option Team.dict;
  visitor_team : option Team.dict;
  home_team_score : option Z;
  visitor_team_score : option Z;
  status : option pystr }.
End Game.

(** The records of the data model: every member present. *)
Record team := Team {
  team_id : Z;
  team_abbreviation : pystr;
  team_full_name : pystr;
  team_name : pystr }.

Record game := Game {
  game_home_team : team;
  game_visitor_team : team;
  game_home_score : Z;
  game_visitor_score : Z;
  game_status : pystr }.

Definition team_json (t : team) : Team.dict :=
  Team.Dict (Some (team_id t)) (Some (team_abbreviation t))
    (Some (team_full_name t)) (Some (team_name t)).

Definition game_json (g : game) : Game.dict :=
  Game.Dict (Some (team_json (game_home_team g)))
    (Some (team_json (game_visitor_team g)))
    (Some (game_home_score g)) (Some (game_visitor_score g))
    (Some (game_status g)).

(** What a server answers to one request.  The body is a JSON object;
    [data] is its "data" member, [None] when the body has none. *)
Inductive reply (A : Type) :=
| Unreachable
| Response (status_code : Z) (text : pystr) (data : option A).

Arguments Unreachable {A}.
Arguments Response {A} status_code text data.

Record response (A : Type) := Resp {
  status_code : Z;
  text : pystr;
  data : option A }.

Arguments Resp {A} status_code text data.
Arguments status_code {A} r.
Arguments text {A} r.
Arguments data {A} r.

(** The two library functions that the script applies to strings of the
    environment.  They are taken as the interpreter has them: which
    strings they read is no matter of the script.  [None] stands for the
    exception raised on a string that is not read ([ValueError] for
    [int]).  Two facts hold of [date.fromisoformat] in every interpreter
    and come with it: what it returns is a [date] object, so a date of the
    calendar, and it reads the extended form YYYY-MM-DD. *)
Record interpreter := Interpreter {
  (** [int(s)] *)
  int : pystr → option Z;
  (** [date.fromisoformat(s)] *)
  fromisoformat : pystr → option date;
  fromisoformat_date :
    ∀ s d, fromisoformat s = Some d → valid_date d = true;
  fromisoformat_extended :
    ∀ s d, iso_extended s = Some d → fromisoformat s = Some d }.

(** Everything the script reads from outside. *)
Record world := World {
  python : interpreter;
  environ : gmap string pystr;
  (** [datetime.now(ZoneInfo("America/Chicago"))]: the wall clock of
      the zone, which the zone database is taken to know *)
  now_chicago : datetime;
  (** GET /teams *)
  teams_reply : reply (list Team.dict);
  (** GET /games for a team id and a date *)
  games_reply : Z → date → reply (list Game.dict);
  (** POST /2/tweets for a text; [data] is the "id" member of "data" *)
  tweets_reply : pystr → reply (option pystr) }.

Definition getenv (w : world) (key : string) : option pystr := environ w !! key.

Definition requests_get {A} (url : pystr) (headers : option pystr)
    (served : reply A) : run (response A) :=
  _ ← emit (HttpGet url headers);
  match served with
  | Unreachable => raise ConnectionError
  | Response c t d => mret (Resp c t d)
  end.

Definition requests_post {A} (url : pystr) (auth : list (option pystr))
    (text : pystr) (served : reply A) : run (response A) :=
  _ ← emit (HttpPost url auth text);
  match served with
  | Unreachable => raise ConnectionError
  | Response c t d => mret (Resp c t d)
  end.

Definition raise_for_status {A} (r : response A) : run unit :=
  if (400 <=? status_code r) && (status_code r <? 600)
  then raise (HTTPError (status_code r))
  else mret ().

(** ** The script *)

Definition BALLDONTLIE_API : pystr := lit "https://api.balldontlie.io/v1".
Definition GAMES_URL : pystr := BALLDONTLIE_API ++ lit "/games".
Definition TEAMS_URL : pystr := BALLDONTLIE_API ++ lit "/teams".

Definition TEAM_ABBR : pystr := lit "OKC".
Definition TEAM_NICK : pystr := lit "Thunder".
Definition TEAM_CITY_FULL : pystr := lit "Oklahoma City Thunder".

Definition BDL_API_KEY (w : world) : option pystr := getenv w "BDL_API_KEY".

(** The "Authorization" header, when there is one. *)
Definition HEADERS (w : world) : option pystr :=
  if truthy (BDL_API_KEY w) then BDL_API_KEY w else None.

Definition API_KEY (w : world) : option pystr := getenv w "TWITTER_API_KEY".
Definition API_SECRET (w : world) : option pystr := getenv w "TWITTER_API_SECRET".
Definition ACCESS_TOKEN (w : world) : option pystr := getenv w "TWITTER_ACCESS_TOKEN".
Definition ACCESS_SECRET (w : world) : option pystr := getenv w "TWITTER_ACCESS_SECRET".

Definition fail {A} (msg : pystr) (code : Z) : run A :=
  _ ← print msg;
  sys_exit code.

Definition chicago_yesterday_date (w : world) : run date :=
  let force := getenv w "FORCE_DATE" in
  match (if truthy force then force ≫= fromisoformat (python w) else None) with
  | Some d => mret d
  | None =>
      let now_ct := now_chicago w in
      match sub_one_day now_ct with
      | Some yday_ct => mret (dt_date yday_ct)
      | None => raise OverflowError
      end
  end.

(** The [for] loop of [resolve_team_id]: [None] when it runs to its end. *)
Fixpoint resolve_team_id_scan (teams : list Team.dict) : option (run Z) :=
  match teams with
  | [] => None
  | t :: rest =>
      if bool_decide (Team.abbreviation t = Some TEAM_ABBR)
         || bool_decide (Team.full_name t = Some TEAM_CITY_FULL)
      then Some (getitem "id" (Team.id t))
      else resolve_team_id_scan rest
  end.

Definition resolve_team_id (w : world) : run Z :=
  let env_id := getenv w "TEAM_ID" in
  match (if truthy env_id then env_id ≫= int (python w) else None) with
  | Some n => mret n
  | None =>
      r ← requests_get TEAMS_URL (HEADERS w) (teams_reply w);
      _ ← raise_for_status r;
      match resolve_team_id_scan (get (data r) []) with
      | Some found => found
      | None =>
          fail (lit "Could not resolve team_id for " ++ TEAM_CITY_FULL
                  ++ lit " / " ++ TEAM_ABBR) 1
      end
  end.

(** The URL that requests builds from [GAMES_URL] and [params]. *)
Definition games_request_url (team_id : Z) (date_obj : date) : pystr :=
  GAMES_URL ++ lit "?dates%5B%5D=" ++ isoformat date_obj
    ++ lit "&team_ids%5B%5D=" ++ str_int team_id ++ lit "&per_page=100".

(** The [for] loop of [fetch_game_for]: [None] when it runs to its end. *)
Fixpoint fetch_game_for_scan (games : list Game.dict) : option Game.dict :=
  match games with
  | [] => None
  | g :: rest =>
      if bool_decide (lower (get (Game.status g) (lit ""))
                        ∈ [lit "final"; lit "final/ot"; lit "finished"])
         || (0 <? get (Game.home_team_score g) 0
                    + get (Game.visitor_team_score g) 0)
      then Some g
      else fetch_game_for_scan rest
  end.

Definition fetch_game_for (w : world) (team_id : Z) (date_obj : date)
    : run (option Game.dict) :=
  r ← requests_get (games_request_url team_id date_obj) (HEADERS w)
        (games_reply w team_id date_obj);
  _ ← print (lit "DEBUG requesting: " ++ games_request_url team_id date_obj);
  _ ← raise_for_status r;
  let data := get (data r) [] in
  match data with
  | [] => mret None
  | first :: _ =>
      match fetch_game_for_scan data with
      | Some g => mret (Some g)
      | None => mret (Some first)
      end
  end.

Definition format_tweet (game : option Game.dict) (date_obj : date)
    (team_id : Z) : run (option pystr) :=
  match game with
  | None =>
      _ ← print (lit "No game found for date: " ++ isoformat date_obj);
      mret None
  | Some game =>
      home ← getitem "home_team" (Game.home_team game);
      away ← getitem "visitor_team" (Game.visitor_team game);
      home_score ← getitem "home_team_score" (Game.home_team_score game);
      away_score ← getitem "visitor_team_score" (Game.visitor_team_score game);
      home_id ← getitem "id" (Team.id home);
      let is_home := home_id =? team_id in
      let team_score := if is_home then home_score else away_score in
      let opp := if is_home then away else home in
      let opp_score := if is_home then away_score else home_score in
      let won := opp_score <? team_score in
      let yes_no := if won then lit "YES" else lit "NO" in
      let month := month_abbr (month date_obj) in
      let date_str :=
        month ++ lit " " ++ str_int (day date_obj) ++ lit ", "
          ++ str_int (year date_obj) in
      let venue := if is_home then lit "vs" else lit "@" in
      opp_full_name ← getitem "full_name" (Team.full_name opp);
      let opponent_line := venue ++ lit " " ++ opp_full_name in
      opp_name ← getitem "name" (Team.name opp);
      let score_line :=
        TEAM_NICK ++ lit " " ++ str_int team_score ++ lit " " ++ EN_DASH
          ++ lit " " ++ str_int opp_score ++ lit " " ++ opp_name in
      let tweet :=
        yes_no ++ NL ++ NL ++ date_str ++ NL ++ opponent_line ++ NL
          ++ score_line in
      mret (Some (take 280 tweet))
  end.

(** [all([...])] over the four credentials. *)
Definition all_truthy (vs : list (option pystr)) : bool := forallb truthy vs.

Definition post_to_x (w : world) (status_text : pystr) : run unit :=
  let creds := [API_KEY w; API_SECRET w; ACCESS_TOKEN w; ACCESS_SECRET w] in
  _ ← (if negb (all_truthy creds)
       then fail (lit "Missing one or more Twitter credentials in environment variables.") 1
       else mret ());
  let url := lit "https://api.twitter.com/2/tweets" in
  r ← requests_post url creds status_text (tweets_reply w status_text);
  _ ← (if 400 <=? status_code r
       then fail (lit "Twitter post failed [" ++ str_int (status_code r)
                    ++ lit "]: " ++ text r) 1
       else mret ());
  let tid := get (data r) None in
  print (lit "Tweet posted: " ++ get tid (lit "None")).

Definition main (w : world) : run unit :=
  ydate ← chicago_yesterday_date w;
  team_id ← resolve_team_id w;
  game ← fetch_game_for w team_id ydate;
  tweet ← format_tweet game ydate team_id;
  match tweet with
  | None =>
      print (lit "No Thunder game yesterday " ++ [8212%N] ++ lit " nothing to post.")
  | Some tweet => post_to_x w tweet
  end.

(** ** Vocabulary of the properties *)

(** The message template as the specification words it, piece by piece:
    the verdict, a blank line, the date, the venue with the opponent's full
    name, and the score line ending in the opponent's short name.  The
    theorems compare what [format_tweet] computes with it. *)
Definition rendered_date (d : date) : pystr :=
  month_abbr (month d) ++ lit " " ++ str_int (day d) ++ lit ", "
    ++ str_int (year d).

Definition template (yes_no : pystr) (d : date) (venue : pystr)
    (opp_full_name : pystr) (team_score opp_score : Z) (opp_name : pystr)
    : pystr :=
  yes_no ++ NL ++ NL ++ rendered_date d ++ NL ++ venue ++ opp_full_name ++ NL
    ++ lit "Thunder " ++ str_int team_score ++ lit " " ++ EN_DASH ++ lit " "
    ++ str_int opp_score ++ lit " " ++ opp_name.

Definition verdict (won : bool) : pystr := if won then lit "YES" else lit "NO".

Definition okc := Team 25 (lit "OKC") (lit "Oklahoma City Thunder") (lit "Thunder").
Definition den := Team 8 (lit "DEN") (lit "Denver Nuggets") (lit "Nuggets").

(** The side of the resolved team, by id match with the home team, and
    what follows from it. *)
Definition at_home (g : game) (tid : Z) : bool :=
  bool_decide (team_id (game_home_team g) = tid).

Definition score_of_team (g : game) (tid : Z) : Z :=
  if at_home g tid then game_home_score g else game_visitor_score g.

Definition score_of_opponent (g : game) (tid : Z) : Z :=
  if at_home g tid then game_visitor_score g else game_home_score g.

Definition opponent (g : game) (tid : Z) : team :=
  if at_home g tid then game_visitor_team g else game_home_team g.

(** The message of the scenario of 2024-01-15, written out. *)
Definition scenario_message (opp_full_name opp_name : pystr) : pystr :=
  lit "YES" ++ NL ++ NL ++ lit "Jan 15, 2024" ++ NL ++ lit "vs "
    ++ opp_full_name ++ NL ++ lit "Thunder 120 " ++ EN_DASH ++ lit " 100 "
    ++ opp_name.

(** A team whose full name has 300 characters. *)
Definition long_named : team :=
  Team 8 (lit "DEN") (replicate 300 120%N) (lit "Nuggets").

(** A record the fetcher prefers: its status, lower-cased, is one of the
    completed ones, or its two scores add up to more than zero.  An absent
    status counts as "", an absent score as 0. *)
Definition completed_statuses : list pystr :=
  [lit "final"; lit "final/ot"; lit "finished"].

Definition preferred (g : Game.dict) : Prop :=
  lower (get (Game.status g) (lit "")) ∈ completed_statuses
  ∨ 0 < get (Game.home_team_score g) 0 + get (Game.visitor_team_score g) 0.

(** [g] is the first preferred record of [games]. *)
Definition first_preferred (games : list Game.dict) (g : Game.dict) : Prop :=
  ∃ i : nat,
    games !! i = Some g ∧ preferred g ∧
    ∀ (j : nat) g', (j < i)%nat → games !! j = Some g' → ¬ preferred g'.

(** A served answer that [raise_for_status] lets through. *)
Definition passes (code : Z) : Prop := ¬ (400 ≤ code < 600).

(** Sample inputs: a game under way, the same game once over, and a world
    whose games endpoint serves a given list. *)
Definition under_way : game := Game okc den 55 50 (lit "3rd Qtr").
Definition over : game := Game okc den 120 100 (lit "Final").

(** The interpreter of the sample runs, whose strings are plain numerals
    and dates in the extended form, which every interpreter reads alike. *)
Definition plain_python : interpreter.
Proof.
  refine (Interpreter plain_int iso_extended _ (λ s d Hread, Hread)).
  unfold iso_extended. intros s d Hparse.
  repeat (destruct s as [|? s]; [discriminate Hparse|]).
  repeat match type of Hparse with
         | context [match ?x with _ => _ end] =>
             is_var x; destruct x; try discriminate Hparse
         end.
  apply bind_Some in Hparse as (y & _ & Hparse).
  apply bind_Some in Hparse as (m & _ & Hparse).
  apply bind_Some in Hparse as (dd & _ & Hparse).
  destruct (valid_date (Date y m dd)) eqn:Hvalid; [|discriminate Hparse].
  by injection Hparse as <-.
Defined.

Definition world_serving (env : gmap string pystr) (teams : list Team.dict)
    (games : list Game.dict) : world :=
  World plain_python env (DateTime (Date 2024 1 16) 9 0 0)
    (Response 200 [] (Some teams))
    (λ _ _, Response 200 [] (Some games))
    (λ _, Response 201 [] (Some (Some (lit "1")))).

(** The team the resolver looks for, and the first such record of a
    list. *)
Definition is_thunder (t : team) : Prop :=
  team_abbreviation t = lit "OKC"
  ∨ team_full_name t = lit "Oklahoma City Thunder".

Definition first_thunder (ts : list team) (t : team) : Prop :=
  ∃ i : nat,
    ts !! i = Some t ∧ is_thunder t ∧
    ∀ (j : nat) t', (j < i)%nat → ts !! j = Some t' → ¬ is_thunder t'.

(** TEAM_ID is absent, or empty, or is no integer for the interpreter. *)
Definition no_team_override (w : world) : Prop :=
  getenv w "TEAM_ID" = None
  ∨ getenv w "TEAM_ID" = Some []
  ∨ ∃ s, getenv w "TEAM_ID" = Some s ∧ int (python w) s = None.

(** FORCE_DATE is absent, or empty, or is no date for the interpreter. *)
Definition no_date_override (w : world) : Prop :=
  getenv w "FORCE_DATE" = None
  ∨ getenv w "FORCE_DATE" = Some []
  ∨ ∃ s, getenv w "FORCE_DATE" = Some s ∧ fromisoformat (python w) s = None.

(** One of the four posting credentials is missing. *)
Definition credential_missing (w : world) : Prop :=
  getenv w "TWITTER_API_KEY" = None ∨ getenv w "TWITTER_API_SECRET" = None
  ∨ getenv w "TWITTER_ACCESS_TOKEN" = None
  ∨ getenv w "TWITTER_ACCESS_SECRET" = None.

(** Environments of the sample runs. *)
Definition env_team_25 : gmap string pystr := {["TEAM_ID" := lit "25"]}.
Definition env_forced : gmap string pystr := {["FORCE_DATE" := lit "2024-01-15"]}.
Definition env_malformed : gmap string pystr := {["FORCE_DATE" := lit "15/01/2024"]}.
Definition env_credentials : gmap string pystr :=
  {["TWITTER_API_KEY" := lit "k"; "TWITTER_API_SECRET" := lit "s";
    "TWITTER_ACCESS_TOKEN" := lit "t"; "TWITTER_ACCESS_SECRET" := lit "a";
    "FORCE_DATE" := lit "2024-01-15"]}.
Definition env_three_credentials : gmap string pystr :=
  {["TWITTER_API_KEY" := lit "k"; "TWITTER_API_SECRET" := lit "s";
    "TWITTER_ACCESS_TOKEN" := lit "t"]}.

(** ** Vocabulary of the further properties *)

(** The texts sent to the posting endpoint in a trace, in order, and the
    requests of a trace. *)
Definition posted_text (e : event) : option pystr :=
  match e with
  | HttpPost _ _ text => Some text
  | _ => None
  end.

Definition posted (tr : list event) : list pystr := omap posted_text tr.

Definition requests (tr : list event) : list event := List.filter is_request tr.

(** The four posting credentials are there, none of them empty. *)
Definition credentials_set (w : world) : Prop :=
  truthy (getenv w "TWITTER_API_KEY") = true
  ∧ truthy (getenv w "TWITTER_API_SECRET") = true
  ∧ truthy (getenv w "TWITTER_ACCESS_TOKEN") = true
  ∧ truthy (getenv w "TWITTER_ACCESS_SECRET") = true.

(** Every number below [bound], written in decimal and padded to [width],
    has exactly [width] characters and reads back as itself. *)
Definition numerals_fit (width : nat) (bound : Z) : bool :=
  forallb
    (λ n, bool_decide (length (zfill width (str_int n)) = width)
          && bool_decide (digits_val 0 (zfill width (str_int n)) = Some n))
    (seqZ 0 bound).

(** The keys the formatter reads with [d[k]]. *)
Definition formatter_keys : list string :=
  ["home_team"; "visitor_team"; "home_team_score"; "visitor_team_score";
   "id"; "full_name"; "name"]%string.

(** Worlds of the sample runs in which an endpoint does not answer, or
    answers with an error status. *)
Definition world_games_down : world :=
  World plain_python ∅ (DateTime (Date 2024 1 16) 9 0 0)
    (Response 200 [] (Some [team_json okc])) (λ _ _, Unreachable)
    (λ _, Unreachable).

Definition world_games_refusing : world :=
  World plain_python ∅ (DateTime (Date 2024 1 16) 9 0 0)
    (Response 200 [] (Some [team_json okc]))
    (λ _ _, Response 429 (lit "Too many requests") None)
    (λ _, Unreachable).

(** A JSON team object that names the team the resolver looks for, by
    its abbreviation or by its full name. *)
Definition names_thunder (t : Team.dict) : Prop :=
  Team.abbreviation t = Some (lit "OKC")
  ∨ Team.full_name t = Some (lit "Oklahoma City Thunder").

(** A team object with the right abbreviation and nothing else, and one
    with all its members. *)
Definition okc_without_id : Team.dict :=
  Team.Dict None (Some (lit "OKC")) None None.

Definition world_teams (served : reply (list Team.dict)) : world :=
  World plain_python ∅ (DateTime (Date 2024 1 16) 9 0 0) served
    (λ _ _, Unreachable) (λ _, Unreachable).

(** A world whose wall clock reads a given date, with a given
    FORCE_DATE. *)
Definition world_on (today : date) (force : option pystr) : world :=
  World plain_python
    (match force with
         | Some s => {["FORCE_DATE" := s]}
         | None => ∅
         end)
    (DateTime today 23 59 59) Unreachable (λ _ _, Unreachable)
    (λ _, Unreachable).

(** The one request of the publisher: the POST of a text, signed with
    the four credentials as the environment gives them. *)
Definition tweet_request (w : world) (text : pystr) : event :=
  HttpPost (lit "https://api.twitter.com/2/tweets")
    [getenv w "TWITTER_API_KEY"; getenv w "TWITTER_API_SECRET";
     getenv w "TWITTER_ACCESS_TOKEN"; getenv w "TWITTER_ACCESS_SECRET"]
    text.

(** The identifier printed after a post: the "id" of the answer, or
    "None" when the answer has none. *)
Definition printed_id (data : option (option pystr)) : pystr :=
  match data with
  | Some (Some tid) => tid
  | _ => lit "None"
  end.

(** An environment whose fourth credential is set, but empty, and worlds
    whose posting endpoint answers in a given way. *)
Definition env_empty_credential : gmap string pystr :=
  {["TWITTER_API_KEY" := lit "k"; "TWITTER_API_SECRET" := lit "s";
    "TWITTER_ACCESS_TOKEN" := lit "t"; "TWITTER_ACCESS_SECRET" := lit ""]}.

Definition world_posting (env : gmap string pystr)
    (answer : reply (option pystr)) : world :=
  World plain_python env (DateTime (Date 2024 1 16) 9 0 0)
    (Response 200 [] (Some [team_json den; team_json okc]))
    (λ _ _, Response 200 [] (Some [game_json over]))
    (λ _, answer).

(** A finished game whose JSON object carries no score. *)
Definition final_without_scores : Game.dict :=
  Game.Dict (Some (team_json okc)) (Some (team_json den)) None None
    (Some (lit "Final")).

(** The two lines the script can end on when all went well. *)
Definition nothing_to_post : pystr :=
  lit "No Thunder game yesterday " ++ [8212%N] ++ lit " nothing to post.".

(** The text the formatter makes of a game record: the first 280
    characters of the template. *)
Definition message_for (g : game) (d : date) (tid : Z) : pystr :=
  take 280
    (template
       (if score_of_opponent g tid <? score_of_team g tid
        then lit "YES" else lit "NO")
       d (if at_home g tid then lit "vs " else lit "@ ")
       (team_full_name (opponent g tid))
       (score_of_team g tid) (score_of_opponent g tid)
       (team_name (opponent g tid))).

(** A game that has not started, and a world in which it is the only
    record of the day and every request is answered. *)
Definition unplayed : game := Game okc den 0 0 (lit "7:00 pm ET").

Definition world_unplayed : world :=
  World plain_python env_credentials (DateTime (Date 2024 1 16) 9 0 0)
    (Response 200 [] (Some [team_json den; team_json okc]))
    (λ _ _, Response 200 [] (Some [game_json unplayed]))
    (λ _, Response 201 [] (Some (Some (lit "1")))).

(** ** Laws of runs *)

Section RunLaws.

Context {A B : Type}.

Lemma bind_returned (a : A) (f : A → run B) : (mret a ≫= f) = f a.
Proof. unfold mbind, run_bind, mret, run_ret; simpl. by destruct (f a). Qed.

Lemma bind_result (r : run A) (a : A) (f : A → run B) :
  result r = Returned a →
  (r ≫= f) = (trace r ++ trace (f a), result (f a)).
Proof. destruct r as [tr o]. simpl. by intros ->. Qed.

End RunLaws.

(** Evaluation of the parts of a run that are known. *)
Ltac run_simpl :=
  cbn [mret run_ret mbind run_bind trace result fst snd app
       emit print raise sys_exit fail].

(** ** The embedding at work *)

Example lower_status : lower (lit "Final/OT") = lit "final/ot".
Proof. reflexivity. Qed.

Example plain_int_numerals :
  plain_int (lit "25") = Some 25 ∧ plain_int (lit "-007") = Some (-7)
  ∧ plain_int (lit "25th") = None ∧ plain_int (lit "") = None
  ∧ plain_int (lit "+") = None.
Proof. by vm_compute. Qed.

Example iso_extended_dates :
  iso_extended (lit "2024-02-29") = Some (Date 2024 2 29)
  ∧ iso_extended (lit "2023-02-29") = None
  ∧ iso_extended (lit "2024-1-15") = None.
Proof. by vm_compute. Qed.

Example toordinal_epoch : toordinal (Date 1970 1 1) = 719163.
Proof. reflexivity. Qed.

Example rendered_date_scenario : rendered_date (Date 2024 1 15) = lit "Jan 15, 2024".
Proof. reflexivity. Qed.

(** A whole run: the date forced, the team found in the provider's list,
    one finished game, the four credentials set. *)
Example main_posts :
  main (world_serving env_credentials (team_json <$> [den; okc]) [game_json over])
  = ([HttpGet (lit "https://api.balldontlie.io/v1/teams") None;
      HttpGet (lit "https://api.balldontlie.io/v1/games?dates%5B%5D=2024-01-15&team_ids%5B%5D=25&per_page=100") None;
      Printed (lit "DEBUG requesting: https://api.balldontlie.io/v1/games?dates%5B%5D=2024-01-15&team_ids%5B%5D=25&per_page=100");
      HttpPost (lit "https://api.twitter.com/2/tweets")
        [Some (lit "k"); Some (lit "s"); Some (lit "t"); Some (lit "a")]
        (scenario_message (lit "Denver Nuggets") (lit "Nuggets"));
      Printed (lit "Tweet posted: 1")],
     Returned ()).
Proof. by vm_compute. Qed.

(** The same run with three credentials of four: exit status 1, and no
    request to the posting endpoint. *)
Example main_three_credentials :
  exit_status (main (world_serving env_three_credentials
                       (team_json <$> [den; okc]) [game_json over])) = 1
  ∧ forallb (λ e, negb (is_post e))
      (trace (main (world_serving env_three_credentials
                      (team_json <$> [den; okc]) [game_json over]))) = true.
Proof. by vm_compute. Qed.

(** ** The formatter *)

(** One step of a run on a record of the data model: read a member that is
    there, and go on. *)
Ltac member_step :=
  cbn [getitem game_json team_json
       Game.home_team Game.visitor_team Game.home_team_score
       Game.visitor_team_score Game.status
       Team.id Team.abbreviation Team.full_name Team.name];
  rewrite ?bind_returned.

Section Formatter.

Implicit Types (g : game) (d : date) (tid : Z).

Lemma format_tweet_home g d tid :
  team_id (game_home_team g) = tid →
  format_tweet (Some (game_json g)) d tid =
    ([], Returned (Some (take 280
      (template (verdict (game_visitor_score g <? game_home_score g)) d
         (lit "vs ") (team_full_name (game_visitor_team g))
         (game_home_score g) (game_visitor_score g)
         (team_name (game_visitor_team g)))))).
Proof.
  intros Hid. apply Z.eqb_eq in Hid.
  unfold format_tweet. repeat member_step.
  cbv zeta. rewrite Hid. repeat member_step.
  reflexivity.
Qed.

Lemma format_tweet_away g d tid :
  team_id (game_home_team g) ≠ tid →
  format_tweet (Some (game_json g)) d tid =
    ([], Returned (Some (take 280
      (template (verdict (game_home_score g <? game_visitor_score g)) d
         (lit "@ ") (team_full_name (game_home_team g))
         (game_visitor_score g) (game_home_score g)
         (team_name (game_home_team g)))))).
Proof.
  intros Hid. apply Z.eqb_neq in Hid.
  unfold format_tweet. repeat member_step.
  cbv zeta. rewrite Hid. repeat member_step.
  reflexivity.
Qed.

Lemma format_tweet_complete g d tid :
  format_tweet (Some (game_json g)) d tid =
    ([], Returned (Some (take 280
      (template (verdict (score_of_opponent g tid <? score_of_team g tid)) d
         (if at_home g tid then lit "vs " else lit "@ ")
         (team_full_name (opponent g tid))
         (score_of_team g tid) (score_of_opponent g tid)
         (team_name (opponent g tid)))))).
Proof.
  unfold score_of_team, score_of_opponent, opponent, at_home.
  case_bool_decide as Hid.
  - by apply format_tweet_home.
  - by apply format_tweet_away.
Qed.

Lemma take_280_verdict (won : bool) (rest : pystr) :
  verdict won `prefix_of` take 280 (verdict won ++ rest).
Proof.
  rewrite take_app, (take_ge (verdict won)); [by apply prefix_app_r|].
  destruct won; simpl; lia.
Qed.

Lemma verdict_yes (won : bool) (rest : pystr) :
  lit "YES" `prefix_of` take 280 (verdict won ++ rest) ↔ won = true.
Proof.
  split.
  - destruct won; [done|]. intros [k Hk]. discriminate Hk.
  - intros ->. apply (take_280_verdict true).
Qed.

Lemma verdict_no (won : bool) (rest : pystr) :
  lit "NO" `prefix_of` take 280 (verdict won ++ rest) ↔ won = false.
Proof.
  split.
  - destruct won; [|done]. intros [k Hk]. discriminate Hk.
  - intros ->. apply (take_280_verdict false).
Qed.

Lemma scenario_message_fits (full short : pystr) :
  (length full + length short ≤ 240)%nat →
  take 280 (scenario_message full short) = scenario_message full short.
Proof.
  intros Hlen. apply take_ge. unfold scenario_message.
  rewrite !length_app. simpl. lia.
Qed.

(** C1, as amended: on every game record the formatter returns the first
    280 characters of the template: the verdict ("YES" when the team's
    score is the greater one, "NO" otherwise), a blank line, the date as
    abbreviated month, day, comma, year, then "vs " (home side) or "@ "
    (visitor side) and the opponent's full name, then the score line.  In
    the scenario of 2024-01-15 (team 25 at home, 120 to 100) this is the
    first 280 characters of the expected text, and the expected text itself
    whenever the two names of the opponent have at most 240 characters
    together. *)
Theorem format_tweet_template g d tid :
  ∃ msg,
    format_tweet (Some (game_json g)) d tid = ([], Returned (Some msg)) ∧
    msg = take 280
            (template
               (if score_of_opponent g tid <? score_of_team g tid
                then lit "YES" else lit "NO")
               d
               (if at_home g tid then lit "vs " else lit "@ ")
               (team_full_name (opponent g tid))
               (score_of_team g tid) (score_of_opponent g tid)
               (team_name (opponent g tid))) ∧
    (score_of_opponent g tid < score_of_team g tid → lit "YES" `prefix_of` msg) ∧
    (¬ score_of_opponent g tid < score_of_team g tid → lit "NO" `prefix_of` msg) ∧
    (d = Date 2024 1 15 → tid = 25 → team_id (game_home_team g) = 25 →
     game_home_score g = 120 → game_visitor_score g = 100 →
     let full := team_full_name (game_visitor_team g) in
     let short := team_name (game_visitor_team g) in
     msg = take 280 (scenario_message full short) ∧
     ((length full + length short ≤ 240)%nat → msg = scenario_message full short)).
Proof.
  eexists. split; [apply format_tweet_complete|].
  split; [reflexivity|]. unfold template. repeat split.
  - intros Hwon. apply verdict_yes. by apply Z.ltb_lt.
  - intros Hlost. apply verdict_no. by apply Z.ltb_nlt.
  - subst. unfold score_of_opponent, score_of_team, opponent, at_home.
    rewrite bool_decide_eq_true_2 by done.
    match goal with H : game_home_score g = _ |- _ => rewrite H end.
    match goal with H : game_visitor_score g = _ |- _ => rewrite H end.
    reflexivity.
  - intros Hlen. subst. unfold score_of_opponent, score_of_team, opponent, at_home.
    rewrite bool_decide_eq_true_2 by done.
    match goal with H : game_home_score g = _ |- _ => rewrite H end.
    match goal with H : game_visitor_score g = _ |- _ => rewrite H end.
    by apply (scenario_message_fits _ _ Hlen).
Qed.

(** The scenario with the two teams of the sample data. *)
Lemma format_tweet_template_witness :
  format_tweet (Some (game_json (Game okc den 120 100 (lit "Final"))))
    (Date 2024 1 15) 25
  = ([], Returned (Some (scenario_message (lit "Denver Nuggets") (lit "Nuggets")))).
Proof.
  destruct (format_tweet_template (Game okc den 120 100 (lit "Final"))
              (Date 2024 1 15) 25) as (msg & -> & _ & _ & _ & Hscenario).
  destruct (Hscenario eq_refl eq_refl eq_refl eq_refl eq_refl) as [_ Hfits].
  rewrite Hfits; [reflexivity | simpl; lia].
Defined.

(** C1 as stated fails: with an opponent whose full name has 300
    characters the formatter returns 280 characters, not the whole text. *)
Lemma format_tweet_scenario_cut :
  format_tweet (Some (game_json (Game okc long_named 120 100 (lit "Final"))))
    (Date 2024 1 15) 25
  ≠ ([], Returned (Some (scenario_message (team_full_name long_named)
                           (team_name long_named)))).
Proof.
  intros Heq.
  apply (f_equal (λ r : run (option pystr),
                    match result r with
                    | Returned (Some m) => length m
                    | _ => 0%nat
                    end)) in Heq.
  vm_compute in Heq. discriminate Heq.
Qed.

(** C4: the message begins with "YES" exactly when the score of the
    resolved team is strictly greater than the opponent's, and with "NO"
    exactly when it is not; in particular on equal scores it begins with
    "NO". *)
Theorem format_tweet_win_iff g d tid :
  ∃ msg,
    format_tweet (Some (game_json g)) d tid = ([], Returned (Some msg)) ∧
    (lit "YES" `prefix_of` msg ↔ score_of_opponent g tid < score_of_team g tid) ∧
    (lit "NO" `prefix_of` msg ↔ score_of_team g tid ≤ score_of_opponent g tid) ∧
    (score_of_team g tid = score_of_opponent g tid → lit "NO" `prefix_of` msg).
Proof.
  eexists. split; [apply format_tweet_complete|]. unfold template.
  assert (Hno : lit "NO" `prefix_of`
            take 280 (verdict (score_of_opponent g tid <? score_of_team g tid)
              ++ NL ++ NL ++ rendered_date d ++ NL
              ++ (if at_home g tid then lit "vs " else lit "@ ")
              ++ team_full_name (opponent g tid) ++ NL ++ lit "Thunder "
              ++ str_int (score_of_team g tid) ++ lit " " ++ EN_DASH ++ lit " "
              ++ str_int (score_of_opponent g tid) ++ lit " "
              ++ team_name (opponent g tid))
          ↔ score_of_team g tid ≤ score_of_opponent g tid).
  { rewrite verdict_no, Z.ltb_ge. done. }
  split; [|split; [exact Hno|]].
  - rewrite verdict_yes. apply Z.ltb_lt.
  - intros Heq. apply Hno. lia.
Qed.

(** A tie at 100 is reported as "NO". *)
Lemma format_tweet_win_iff_witness :
  ∃ msg,
    format_tweet (Some (game_json (Game okc den 100 100 (lit "Final"))))
      (Date 2024 1 15) 25 = ([], Returned (Some msg)) ∧
    lit "NO" `prefix_of` msg.
Proof.
  destruct (format_tweet_win_iff (Game okc den 100 100 (lit "Final"))
              (Date 2024 1 15) 25) as (msg & Hrun & _ & _ & Htie).
  exists msg. split; [exact Hrun|]. apply Htie. reflexivity.
Defined.

(** Whatever the formatter returns, on any JSON object, has at most 280
    characters. *)
Lemma format_tweet_at_most_280 (game : option Game.dict) d tid (msg : pystr) :
  result (format_tweet game d tid) = Returned (Some msg) →
  (length msg ≤ 280)%nat.
Proof.
  destruct game as [[home away home_score away_score st]|]; [|discriminate].
  unfold format_tweet.
  destruct home as [[hid hab hfull hname]|]; [|discriminate].
  destruct away as [[aid aab afull aname]|]; [|discriminate].
  destruct home_score as [hs|]; [|discriminate].
  destruct away_score as [vs|]; [|discriminate].
  destruct hid as [hid|]; [|discriminate].
  repeat member_step. cbv zeta.
  destruct (hid =? tid).
  - destruct afull, aname; repeat member_step; try discriminate.
    intros [= <-]. rewrite length_take. lia.
  - destruct hfull, hname; repeat member_step; try discriminate.
    intros [= <-]. rewrite length_take. lia.
Qed.

(** C9: the text returned by the formatter has at most 280 characters,
    whatever the game object, the date and the team id; and on every game
    record the formatter does return a text. *)
Theorem format_tweet_length :
  (∀ (game : option Game.dict) d tid (msg : pystr),
     result (format_tweet game d tid) = Returned (Some msg) →
     (length msg ≤ 280)%nat) ∧
  (∀ g d tid, ∃ msg : pystr,
     format_tweet (Some (game_json g)) d tid = ([], Returned (Some msg)) ∧
     (length msg ≤ 280)%nat).
Proof.
  split; [apply format_tweet_at_most_280|].
  intros g d tid. eexists. split; [apply format_tweet_complete|].
  rewrite length_take. lia.
Qed.

(** With a 300-character opponent name the text has exactly 280. *)
Lemma format_tweet_length_witness :
  ∃ msg : pystr,
    result (format_tweet
              (Some (game_json (Game okc long_named 120 100 (lit "Final"))))
              (Date 2024 1 15) 25) = Returned (Some msg) ∧
    (length msg ≤ 280)%nat.
Proof.
  eexists. split; [vm_compute; reflexivity|].
  apply (proj1 format_tweet_length
           (Some (game_json (Game okc long_named 120 100 (lit "Final"))))
           (Date 2024 1 15) 25).
  vm_compute. reflexivity.
Defined.

(** C10: when the id of the home team differs from the resolved team id,
    whether or not it is the visitor's id, the formatter does not fail: it
    returns the text in which the visitor's score is the team's score, the
    home team is the opponent and the venue mark is "@". *)
Theorem format_tweet_visitor_side g d tid :
  team_id (game_home_team g) ≠ tid →
  format_tweet (Some (game_json g)) d tid =
    ([], Returned (Some (take 280
      (template
         (if game_home_score g <? game_visitor_score g then lit "YES" else lit "NO")
         d (lit "@ ") (team_full_name (game_home_team g))
         (game_visitor_score g) (game_home_score g)
         (team_name (game_home_team g)))))).
Proof. apply format_tweet_away. Qed.

(** Team 99 plays on neither side of the sample game. *)
Lemma format_tweet_visitor_side_witness :
  format_tweet (Some (game_json (Game okc den 120 100 (lit "Final"))))
    (Date 2024 1 15) 99
  = ([], Returned (Some
      (lit "NO" ++ NL ++ NL ++ lit "Jan 15, 2024" ++ NL
         ++ lit "@ Oklahoma City Thunder" ++ NL ++ lit "Thunder 100 "
         ++ EN_DASH ++ lit " 120 Thunder"))).
Proof.
  rewrite (format_tweet_visitor_side (Game okc den 120 100 (lit "Final"))
             (Date 2024 1 15) 99); [reflexivity|].
  simpl. lia.
Defined.

End Formatter.

(** ** The game fetcher *)

Section Fetcher.

Implicit Types (w : world) (g : Game.dict) (games : list Game.dict).

Lemma scan_cons g games :
  fetch_game_for_scan (g :: games) =
    if decide (preferred g) then Some g else fetch_game_for_scan games.
Proof.
  cbn [fetch_game_for_scan]. unfold preferred, completed_statuses.
  case_decide as Hp.
  - destruct Hp as [Hst | Hsc].
    + by rewrite (bool_decide_eq_true_2 _ Hst).
    + apply Z.ltb_lt in Hsc. rewrite Hsc. by rewrite orb_true_r.
  - rewrite bool_decide_eq_false_2 by tauto.
    destruct (Z.ltb_spec 0 (get (Game.home_team_score g) 0
                              + get (Game.visitor_team_score g) 0)); [tauto|done].
Qed.

Lemma scan_found games g :
  fetch_game_for_scan games = Some g → first_preferred games g.
Proof.
  induction games as [|g0 games IH]; [done|].
  rewrite scan_cons. case_decide as Hp.
  - intros [= ->]. exists 0%nat. repeat split; [done|]. intros j g' Hj. lia.
  - intros Hscan. destruct (IH Hscan) as (i & Hi & Hg & Hbefore).
    exists (S i). repeat split; [done..|].
    intros [|j] g' Hj; cbn; [by intros [= <-]|].
    apply Hbefore. lia.
Qed.

Lemma scan_not_found games :
  fetch_game_for_scan games = None ↔ ∀ g, g ∈ games → ¬ preferred g.
Proof.
  induction games as [|g0 games IH].
  - split; [|done]. intros _ g Hg. by apply elem_of_nil in Hg.
  - rewrite scan_cons. case_decide as Hp.
    + split; [done|]. intros Hnone. destruct (Hnone g0); [left|done].
    + rewrite IH. split.
      * intros Hall g [->|Hg]%elem_of_cons; auto.
      * intros Hall g Hg. apply Hall. by right.
Qed.

Lemma scan_app_skip pre games :
  (∀ g, g ∈ pre → ¬ preferred g) →
  fetch_game_for_scan (pre ++ games) = fetch_game_for_scan games.
Proof.
  induction pre as [|g0 pre IH]; [done|]. intros Hall.
  cbn [app]. rewrite scan_cons. rewrite decide_False.
  - apply IH. intros g Hg. apply Hall. by right.
  - apply Hall. by left.
Qed.

Lemma scan_app_found pre games g :
  fetch_game_for_scan pre = Some g →
  fetch_game_for_scan (pre ++ games) = Some g.
Proof.
  induction pre as [|g0 pre IH]; [done|].
  cbn [app]. rewrite !scan_cons. case_decide; auto.
Qed.

Lemma raise_for_status_passes {A} (r : response A) :
  passes (status_code r) → raise_for_status r = mret ().
Proof.
  unfold passes, raise_for_status. intros Hok.
  destruct (Z.leb_spec 400 (status_code r)), (Z.ltb_spec (status_code r) 600);
    simpl; try done; lia.
Qed.

(** The run of the fetcher on an answer that passes. *)
Lemma fetch_game_for_served w tid d code body served :
  games_reply w tid d = Response code body served →
  passes code →
  fetch_game_for w tid d =
    ([HttpGet (games_request_url tid d) (HEADERS w);
      Printed (lit "DEBUG requesting: " ++ games_request_url tid d)],
     Returned
       match get served [] with
       | [] => None
       | first :: rest =>
           Some (default first (fetch_game_for_scan (first :: rest)))
       end).
Proof.
  intros Hserved Hok. unfold fetch_game_for, requests_get. rewrite Hserved.
  run_simpl. rewrite (raise_for_status_passes (Resp code body served) Hok).
  run_simpl. cbn [data].
  destruct (get served []) as [|first rest]; [done|].
  by destruct (fetch_game_for_scan (first :: rest)).
Qed.

(** C2: on a non-empty list of game records the fetcher returns the first
    record, in list order, whose status is case-insensitively one of
    "final", "final/ot", "finished" or whose two scores add up to more
    than zero; when no record is such, it returns the first record. *)
Theorem fetch_game_for_first_preferred w tid d code body games :
  games_reply w tid d = Response code body (Some games) →
  passes code →
  games ≠ [] →
  ∃ g,
    result (fetch_game_for w tid d) = Returned (Some g) ∧
    (first_preferred games g
     ∨ ((∀ g', g' ∈ games → ¬ preferred g') ∧ games !! 0%nat = Some g)).
Proof.
  intros Hserved Hok Hne.
  rewrite (fetch_game_for_served _ _ _ _ _ _ Hserved Hok). cbn [result snd get].
  destruct games as [|first rest]; [done|].
  destruct (fetch_game_for_scan (first :: rest)) as [g|] eqn:Hscan.
  - exists g. split; [done|]. left. by apply scan_found.
  - exists first. split; [done|]. right. split; [|done].
    by apply scan_not_found.
Qed.

(** Of a game under way and the same game once over, the first is
    returned. *)
Lemma fetch_game_for_first_preferred_witness :
  ∃ g,
    result (fetch_game_for
              (world_serving ∅ [] [game_json under_way; game_json over])
              25 (Date 2024 1 15)) = Returned (Some g) ∧
    (first_preferred [game_json under_way; game_json over] g
     ∨ ((∀ g', g' ∈ [game_json under_way; game_json over] → ¬ preferred g')
        ∧ [game_json under_way; game_json over] !! 0%nat = Some g)).
Proof.
  apply (fetch_game_for_first_preferred
           (world_serving ∅ [] [game_json under_way; game_json over])
           25 (Date 2024 1 15) 200 []).
  - reflexivity.
  - unfold passes. lia.
  - discriminate.
Defined.

Lemma final_is_preferred g :
  Game.status g = Some (lit "Final") → preferred g.
Proof.
  intros Hst. left. rewrite Hst.
  apply (bool_decide_eq_true_1 (_ ∈ _)). vm_compute. reflexivity.
Qed.

Lemma fetch_game_for_list w tid d code body first rest :
  games_reply w tid d = Response code body (Some (first :: rest)) →
  passes code →
  result (fetch_game_for w tid d) =
    Returned (Some (default first (fetch_game_for_scan (first :: rest)))).
Proof.
  intros Hserved Hok. by rewrite (fetch_game_for_served _ _ _ _ _ _ Hserved Hok).
Qed.

(** C3 as stated fails: a record with status "3rd Qtr" and a score of 55
    to 50 that precedes the only record with status "Final" is the one
    returned. *)
Lemma fetch_game_for_final_passed_over :
  Game.status (game_json under_way) ≠ Some (lit "Final") ∧
  Game.status (game_json over) = Some (lit "Final") ∧
  result (fetch_game_for
            (world_serving ∅ [] [game_json under_way; game_json over])
            25 (Date 2024 1 15))
  ≠ Returned (Some (game_json over)).
Proof.
  split; [discriminate|]. split; [reflexivity|].
  rewrite (fetch_game_for_list _ 25 (Date 2024 1 15) 200 []
             (game_json under_way) [game_json over]);
    [|reflexivity|unfold passes; lia].
  vm_compute. discriminate.
Qed.

(** C3, as amended: in a list in which exactly one record has status
    "Final", the fetcher returns that record if and only if no record
    before it is a preferred one (completed status, compared
    case-insensitively, or scores adding up to more than zero); when some
    record before it is preferred, the first such record is returned. *)
Theorem fetch_game_for_final w tid d code body pre g post :
  games_reply w tid d = Response code body (Some (pre ++ g :: post)) →
  passes code →
  Game.status g = Some (lit "Final") →
  (∀ g', g' ∈ pre ++ post → Game.status g' ≠ Some (lit "Final")) →
  (result (fetch_game_for w tid d) = Returned (Some g)
   ↔ ∀ g', g' ∈ pre → ¬ preferred g') ∧
  ((∃ g', g' ∈ pre ∧ preferred g') →
   ∃ g', first_preferred pre g' ∧
         result (fetch_game_for w tid d) = Returned (Some g')).
Proof.
  intros Hserved Hok Hfinal Hothers.
  assert (Hrun : ∀ chosen,
            fetch_game_for_scan (pre ++ g :: post) = Some chosen →
            result (fetch_game_for w tid d) = Returned (Some chosen)).
  { intros chosen Hscan. destruct (pre ++ g :: post) as [|first rest] eqn:Hlist.
    - by destruct pre.
    - rewrite (fetch_game_for_list _ _ _ _ _ _ _ Hserved Hok). by rewrite Hscan. }
  assert (Hpre : ∀ g', fetch_game_for_scan pre = Some g' →
            result (fetch_game_for w tid d) = Returned (Some g') ∧ g' ≠ g).
  { intros g' Hscan. split.
    - apply Hrun. by apply scan_app_found.
    - intros ->. destruct (scan_found _ _ Hscan) as (i & Hi & _).
      apply (Hothers g); [|done]. apply elem_of_app. left.
      by apply list_elem_of_lookup_2 in Hi. }
  split; [split|].
  - intros Hres. destruct (fetch_game_for_scan pre) as [g'|] eqn:Hscan.
    + destruct (Hpre g' eq_refl) as [Hres' Hne]. congruence.
    + by apply scan_not_found.
  - intros Hnone. apply Hrun. rewrite (scan_app_skip _ _ Hnone), scan_cons.
    rewrite decide_True; [done|]. by apply final_is_preferred.
  - intros (g' & Hin & Hp).
    destruct (fetch_game_for_scan pre) as [g''|] eqn:Hscan.
    + exists g''. split; [by apply scan_found|]. by apply Hpre.
    + destruct (proj1 (scan_not_found pre) Hscan g' Hin Hp).
Qed.

(** The "Final" record comes first, or after a game not yet played. *)
Lemma fetch_game_for_final_witness :
  result (fetch_game_for
            (world_serving ∅ []
               [game_json (Game okc den 0 0 (lit "7:00 pm ET")); game_json over])
            25 (Date 2024 1 15))
  = Returned (Some (game_json over)).
Proof.
  apply (fetch_game_for_final
           (world_serving ∅ []
              [game_json (Game okc den 0 0 (lit "7:00 pm ET")); game_json over])
           25 (Date 2024 1 15) 200 []
           [game_json (Game okc den 0 0 (lit "7:00 pm ET"))] (game_json over) []).
  - reflexivity.
  - unfold passes. lia.
  - reflexivity.
  - intros g' Hin. apply list_elem_of_singleton in Hin. subst g'. discriminate.
  - intros g' Hin. apply list_elem_of_singleton in Hin. subst g'.
    apply (bool_decide_eq_false_1 (preferred _)). vm_compute. reflexivity.
Defined.

End Fetcher.

(** ** The team resolver *)

Section Resolver.

Implicit Types (w : world) (t : team) (ts : list team).

Lemma truthy_parsed {A} (parse : pystr → option A) (s : pystr) (a : A) :
  s ≠ [] →
  parse s = Some a →
  (if truthy (Some s) then Some s ≫= parse else None) = Some a.
Proof. by destruct s. Qed.

Lemma truthy_unparsed {A} (parse : pystr → option A) (v : option pystr) :
  v ≫= parse = None →
  (if truthy v then v ≫= parse else None) = None.
Proof. intros ->. by destruct (truthy v). Qed.

Lemma resolve_team_id_override w s n :
  getenv w "TEAM_ID" = Some s → s ≠ [] → int (python w) s = Some n →
  resolve_team_id w = ([], Returned n).
Proof.
  intros Henv Hs Hint. unfold resolve_team_id.
  by rewrite Henv, (truthy_parsed _ _ n Hs Hint).
Qed.

Lemma no_team_override_unparsed w :
  no_team_override w →
  (if truthy (getenv w "TEAM_ID")
   then getenv w "TEAM_ID" ≫= int (python w) else None) = None.
Proof.
  intros [-> | [-> | (s & -> & Hint)]]; [done..|].
  apply truthy_unparsed. exact Hint.
Qed.

Lemma resolve_scan_cons t ts :
  resolve_team_id_scan (team_json <$> (t :: ts)) =
    if decide (is_thunder t) then Some (mret (team_id t))
    else resolve_team_id_scan (team_json <$> ts).
Proof.
  cbn [fmap list_fmap resolve_team_id_scan team_json Team.abbreviation
       Team.full_name Team.id getitem].
  unfold is_thunder, TEAM_ABBR, TEAM_CITY_FULL.
  case_decide as Hm.
  - destruct Hm as [-> | ->].
    + by rewrite bool_decide_eq_true_2.
    + rewrite (bool_decide_eq_true_2 (Some _ = Some (lit "Oklahoma City Thunder")));
        [|done]. by rewrite orb_true_r.
  - rewrite !bool_decide_eq_false_2; [done|intros [= ?]; tauto..].
Qed.

Lemma resolve_scan_found ts t :
  first_thunder ts t →
  resolve_team_id_scan (team_json <$> ts) = Some (mret (team_id t)).
Proof.
  intros (i & Hi & Hm & Hbefore). revert i Hi Hbefore.
  induction ts as [|t0 ts IH]; intros i Hi Hbefore; [done|].
  rewrite resolve_scan_cons. destruct i as [|i].
  - injection Hi as ->. by rewrite decide_True.
  - rewrite decide_False.
    + apply (IH i); [done|]. intros j t' Hj. apply (Hbefore (S j)). lia.
    + apply (Hbefore 0%nat); [lia|done].
Qed.

Lemma resolve_scan_not_found ts :
  (∀ t, t ∈ ts → ¬ is_thunder t) →
  resolve_team_id_scan (team_json <$> ts) = None.
Proof.
  induction ts as [|t0 ts IH]; intros Hall; [done|].
  rewrite resolve_scan_cons, decide_False.
  - apply IH. intros t Ht. apply Hall. by right.
  - apply Hall. by left.
Qed.

Lemma resolve_team_id_asks w code body served :
  no_team_override w →
  teams_reply w = Response code body served →
  passes code →
  resolve_team_id w =
    match resolve_team_id_scan (get served []) with
    | Some found => ([HttpGet TEAMS_URL (HEADERS w)] ++ trace found, result found)
    | None =>
        ([HttpGet TEAMS_URL (HEADERS w);
          Printed (lit "Could not resolve team_id for Oklahoma City Thunder / OKC")],
         Exited 1)
    end.
Proof.
  intros Hno Hserved Hok. unfold resolve_team_id.
  rewrite (no_team_override_unparsed _ Hno).
  unfold requests_get. rewrite Hserved. run_simpl.
  rewrite (raise_for_status_passes (Resp code body served) Hok).
  run_simpl. cbn [data].
  by destruct (resolve_team_id_scan (get served [])).
Qed.

(** C5: a TEAM_ID that the interpreter reads as an integer is returned
    at once, with no request made.  Without one (TEAM_ID absent, empty, or
    refused by [int]), the resolver asks the provider and returns the id of
    the first record of the list whose abbreviation is "OKC" or whose full
    name is "Oklahoma City Thunder"; when no record of the list is such,
    it prints a message that names the team and exits with status 1.
    What [int] reads is the interpreter's matter: the statement holds for
    every interpreter. *)
Theorem resolve_team_id_spec w :
  (∀ s n, getenv w "TEAM_ID" = Some s → s ≠ [] →
     int (python w) s = Some n →
     resolve_team_id w = ([], Returned n)) ∧
  (∀ code body ts,
     no_team_override w →
     teams_reply w = Response code body (Some (team_json <$> ts)) →
     passes code →
     (∀ t, first_thunder ts t →
        resolve_team_id w =
          ([HttpGet TEAMS_URL (HEADERS w)], Returned (team_id t))) ∧
     ((∀ t, t ∈ ts → ¬ is_thunder t) →
        resolve_team_id w =
          ([HttpGet TEAMS_URL (HEADERS w);
            Printed (lit "Could not resolve team_id for Oklahoma City Thunder / OKC")],
           Exited 1)
        ∧ exit_status (resolve_team_id w) ≠ 0)).
Proof.
  split; [apply resolve_team_id_override|].
  intros code body ts Hno Hserved Hok.
  pose proof (resolve_team_id_asks _ _ _ _ Hno Hserved Hok) as Hrun.
  cbn [get] in Hrun. split.
  - intros t Hfirst. by rewrite Hrun, (resolve_scan_found _ _ Hfirst).
  - intros Hnone. rewrite Hrun, (resolve_scan_not_found _ Hnone). done.
Qed.

(** An override, a list with the team in second place, a list without
    the team. *)
Lemma resolve_team_id_spec_witness :
  resolve_team_id (world_serving env_team_25 [] []) = ([], Returned 25) ∧
  result (resolve_team_id (world_serving ∅ (team_json <$> [den; okc]) []))
    = Returned 25 ∧
  result (resolve_team_id (world_serving ∅ (team_json <$> [den]) []))
    = Exited 1.
Proof.
  assert (Hden : ¬ is_thunder den) by (intros [Hab | Hfull]; discriminate).
  assert (Hok : passes 200) by (unfold passes; lia).
  assert (Hno : ∀ teams, no_team_override (world_serving ∅ teams []))
    by (intros teams; left; apply lookup_empty).
  split; [|split].
  - apply (proj1 (resolve_team_id_spec (world_serving env_team_25 [] []))
             (lit "25") 25); [reflexivity|discriminate|reflexivity].
  - destruct (proj2 (resolve_team_id_spec
                       (world_serving ∅ (team_json <$> [den; okc]) []))
                200 [] [den; okc] (Hno _) eq_refl Hok) as [Hfound _].
    rewrite (Hfound okc); [reflexivity|].
    exists 1%nat. split; [reflexivity|]. split; [by left|].
    intros [|j] t' Hj; [|lia]. by intros [= <-].
  - destruct (proj2 (resolve_team_id_spec
                       (world_serving ∅ (team_json <$> [den]) []))
                200 [] [den] (Hno _) eq_refl Hok) as [_ Hmissing].
    destruct Hmissing as [-> _]; [|reflexivity].
    intros t Hin. apply list_elem_of_singleton in Hin. by subst t.
Defined.

End Resolver.

(** ** The date resolver *)

Section DateResolver.

Implicit Types (w : world) (d : date).

Lemma valid_date_spec d :
  valid_date d = true ↔
  1 ≤ year d ≤ 9999 ∧ 1 ≤ month d ≤ 12
  ∧ 1 ≤ day d ≤ days_in_month (year d) (month d).
Proof.
  unfold valid_date, MINYEAR, MAXYEAR.
  rewrite !andb_true_iff, !Z.leb_le. tauto.
Qed.

Lemma is_leap_spec y :
  is_leap y = true ↔ y mod 4 = 0 ∧ (y mod 100 ≠ 0 ∨ y mod 400 = 0).
Proof.
  unfold is_leap.
  rewrite andb_true_iff, orb_true_iff, negb_true_iff, !Z.eqb_eq, Z.eqb_neq.
  tauto.
Qed.

Lemma days_before_year_step y :
  days_before_year y =
    days_before_year (y - 1) + 365 + (if is_leap (y - 1) then 1 else 0).
Proof.
  unfold days_before_year.
  destruct (is_leap (y - 1)) eqn:Hleap.
  - apply is_leap_spec in Hleap. Z.div_mod_to_equations. lia.
  - assert (Hn : ¬ ((y - 1) mod 4 = 0
                    ∧ ((y - 1) mod 100 ≠ 0 ∨ (y - 1) mod 400 = 0))).
    { rewrite <- is_leap_spec, Hleap. discriminate. }
    Z.div_mod_to_equations. lia.
Qed.

Lemma month_cases m :
  1 ≤ m ≤ 12 →
  m = 1 ∨ m = 2 ∨ m = 3 ∨ m = 4 ∨ m = 5 ∨ m = 6
  ∨ m = 7 ∨ m = 8 ∨ m = 9 ∨ m = 10 ∨ m = 11 ∨ m = 12.
Proof. lia. Qed.

Lemma days_before_month_step y m :
  2 ≤ m ≤ 12 →
  days_before_month y m =
    days_before_month y (m - 1) + days_in_month y (m - 1).
Proof.
  intros Hm. assert (Hcase : 1 ≤ m ≤ 12) by lia.
  apply month_cases in Hcase. unfold days_before_month, days_in_month.
  destruct Hcase as [->|[->|[->|[->|[->|[->|[->|[->|[->|[->|[->| ->]]]]]]]]]]];
    [lia|destruct (is_leap y); vm_compute; reflexivity..].
Qed.

Lemma days_in_month_bounds y m : 28 ≤ days_in_month y m ≤ 31.
Proof.
  unfold days_in_month.
  destruct (m =? 2); [destruct (is_leap y); lia|].
  destruct ((m =? 4) || (m =? 6) || (m =? 9) || (m =? 11)); lia.
Qed.

Lemma days_before_december y :
  days_before_month y 12 + 31 = 365 + (if is_leap y then 1 else 0).
Proof.
  unfold days_before_month, days_in_month.
  destruct (is_leap y); vm_compute; reflexivity.
Qed.

(** [pred_day] is the day before: one less in the count of days, and
    again a date. *)
Lemma pred_day_spec d :
  valid_date d = true → 1 < toordinal d →
  toordinal (pred_day d) = toordinal d - 1 ∧ valid_date (pred_day d) = true.
Proof.
  rewrite !valid_date_spec. destruct d as [y m dd]. unfold toordinal, pred_day.
  cbn [year month day]. intros (Hy & Hm & Hd) Hord.
  destruct (Z.ltb_spec 1 dd) as [Hdd|Hdd]; cbn [year month day].
  - lia.
  - destruct (Z.ltb_spec 1 m) as [Hmm|Hmm]; cbn [year month day].
    + pose proof (days_in_month_bounds y (m - 1)).
      rewrite (days_before_month_step y m) by lia. lia.
    + assert (m = 1) as -> by lia. assert (dd = 1) as -> by lia.
      assert (Hy2 : 2 ≤ y).
      { destruct (decide (y = 1)) as [->|]; [|lia].
        vm_compute in Hord. discriminate Hord. }
      pose proof (days_before_december (y - 1)) as Hdec.
      rewrite (days_before_year_step y).
      change (days_before_month y 1) with 0.
      change (days_in_month (y - 1) 12) with 31. lia.
Qed.

Lemma chicago_yesterday_date_forced w s d :
  getenv w "FORCE_DATE" = Some s → s ≠ [] →
  fromisoformat (python w) s = Some d →
  chicago_yesterday_date w = ([], Returned d).
Proof.
  intros Henv Hs Hparse. unfold chicago_yesterday_date.
  by rewrite Henv, (truthy_parsed _ _ d Hs Hparse).
Qed.

Lemma no_date_override_unparsed w :
  no_date_override w →
  (if truthy (getenv w "FORCE_DATE")
   then getenv w "FORCE_DATE" ≫= fromisoformat (python w) else None) = None.
Proof.
  intros [-> | [-> | (s & -> & Hparse)]]; [done..|].
  apply truthy_unparsed. exact Hparse.
Qed.

Lemma chicago_yesterday_date_default w :
  no_date_override w →
  1 < toordinal (dt_date (now_chicago w)) →
  chicago_yesterday_date w =
    ([], Returned (pred_day (dt_date (now_chicago w)))).
Proof.
  intros Hnone Hord. unfold chicago_yesterday_date.
  rewrite (no_date_override_unparsed _ Hnone). unfold sub_one_day.
  destruct (Z.ltb_spec (toordinal (dt_date (now_chicago w)) - 1) 1); [lia|done].
Qed.

(** C6: a FORCE_DATE that [date.fromisoformat] reads is returned as it
    is, whatever the clock reads.  A FORCE_DATE that it does not read (and
    an absent or empty one) gives the default: the date part of the Chicago
    wall-clock reading moved back by one day, which is a date again, one
    less in the count of days.  In every case a date is returned and
    nothing is raised.  Which strings [date.fromisoformat] reads is the
    interpreter's matter: the statement holds for every interpreter.  The
    clock is taken to read a date of the calendar later than its first
    day, 0001-01-01. *)
Theorem chicago_yesterday_date_spec w :
  (∀ s d, getenv w "FORCE_DATE" = Some s → s ≠ [] →
     fromisoformat (python w) s = Some d →
     chicago_yesterday_date w = ([], Returned d)) ∧
  (let today := dt_date (now_chicago w) in
   valid_date today = true → 1 < toordinal today →
   (∀ s, getenv w "FORCE_DATE" = Some s →
      fromisoformat (python w) s = None →
      chicago_yesterday_date w = ([], Returned (pred_day today))) ∧
   (getenv w "FORCE_DATE" = None ∨ getenv w "FORCE_DATE" = Some [] →
      chicago_yesterday_date w = ([], Returned (pred_day today))) ∧
   toordinal (pred_day today) = toordinal today - 1 ∧
   valid_date (pred_day today) = true ∧
   ∃ d, chicago_yesterday_date w = ([], Returned d)).
Proof.
  split; [apply chicago_yesterday_date_forced|].
  intros today Hvalid Hord.
  destruct (pred_day_spec today Hvalid Hord) as [Hcount Hdate].
  repeat split; [| |done..|].
  - intros s Henv Hparse. apply chicago_yesterday_date_default; [|done].
    right. right. by exists s.
  - intros Henv. apply chicago_yesterday_date_default; [|done].
    destruct Henv; [by left|by right; left].
  - destruct (getenv w "FORCE_DATE") as [s|] eqn:Henv.
    + destruct (decide (s = [])) as [->|Hs].
      * exists (pred_day today). apply chicago_yesterday_date_default; [|done].
        by right; left.
      * destruct (fromisoformat (python w) s) as [d|] eqn:Hparse.
        -- exists d. by apply (chicago_yesterday_date_forced w s d).
        -- exists (pred_day today).
           apply chicago_yesterday_date_default; [|done].
           right. right. by exists s.
    + exists (pred_day today). apply chicago_yesterday_date_default; [|done].
      by left.
Qed.

(** On 2024-01-16 in Chicago: a forced 2024-01-15, and a malformed
    FORCE_DATE on the first of March of a leap year. *)
Lemma chicago_yesterday_date_spec_witness :
  chicago_yesterday_date (world_serving env_forced [] [])
    = ([], Returned (Date 2024 1 15)) ∧
  chicago_yesterday_date
    (World plain_python env_malformed (DateTime (Date 2024 3 1) 0 30 0)
       Unreachable (λ _ _, Unreachable) (λ _, Unreachable))
    = ([], Returned (Date 2024 2 29)).
Proof.
  split.
  - apply (proj1 (chicago_yesterday_date_spec (world_serving env_forced [] []))
             (lit "2024-01-15") (Date 2024 1 15));
      [reflexivity|discriminate|reflexivity].
  - destruct (proj2 (chicago_yesterday_date_spec
                       (World plain_python env_malformed
                          (DateTime (Date 2024 3 1) 0 30 0)
                          Unreachable (λ _ _, Unreachable) (λ _, Unreachable)))
                eq_refl eq_refl) as [Hmalformed _].
    apply (Hmalformed (lit "15/01/2024")); reflexivity.
Defined.

End DateResolver.

(** ** The publisher and the orchestrator *)

Section Publisher.

Implicit Types (w : world) (e : event).

Lemma all_truthy_missing (vs : list (option pystr)) :
  None ∈ vs → all_truthy vs = false.
Proof.
  induction vs as [|v vs IH]; intros Hin; [by apply elem_of_nil in Hin|].
  apply elem_of_cons in Hin as [<-|Hin]; [done|].
  cbn [all_truthy forallb]. fold (all_truthy vs).
  rewrite (IH Hin). apply andb_false_r.
Qed.

(** C8: when one of the four credentials is missing from the
    environment, the publisher prints its message and exits with status 1,
    and that is all it does: no request is made. *)
Theorem post_to_x_missing_credentials w (status_text : pystr) :
  credential_missing w →
  post_to_x w status_text =
    ([Printed (lit "Missing one or more Twitter credentials in environment variables.")],
     Exited 1)
  ∧ exit_status (post_to_x w status_text) = 1
  ∧ Forall (λ e, is_request e = false) (trace (post_to_x w status_text)).
Proof.
  intros Hmissing.
  assert (Hrun : post_to_x w status_text =
            ([Printed (lit "Missing one or more Twitter credentials in environment variables.")],
             Exited 1)).
  { unfold post_to_x. rewrite all_truthy_missing; [done|].
    unfold API_KEY, API_SECRET, ACCESS_TOKEN, ACCESS_SECRET.
    destruct Hmissing as [-> | [-> | [-> | ->]]]; set_solver. }
  rewrite Hrun. repeat split. by repeat constructor.
Qed.

(** Three credentials of four. *)
Lemma post_to_x_missing_credentials_witness :
  exit_status (post_to_x (world_serving env_three_credentials [] []) (lit "YES"))
    = 1.
Proof.
  apply (post_to_x_missing_credentials
           (world_serving env_three_credentials [] []) (lit "YES")).
  right. right. right. reflexivity.
Defined.

End Publisher.

Section Orchestrator.

Implicit Types (w : world) (e : event).

Lemma chicago_yesterday_date_silent w : trace (chicago_yesterday_date w) = [].
Proof.
  unfold chicago_yesterday_date.
  destruct (if truthy _ then _ else _); [done|].
  by destruct (sub_one_day _).
Qed.

Lemma resolve_scan_silent (teams : list Team.dict) (found : run Z) :
  resolve_team_id_scan teams = Some found → trace found = [].
Proof.
  induction teams as [|t teams IH]; [done|]. cbn [resolve_team_id_scan].
  destruct (_ || _); [|done]. intros [= <-]. by destruct (Team.id t).
Qed.

(** The resolver makes no request to the posting endpoint. *)
Lemma resolve_team_id_no_post w :
  Forall (λ e, is_post e = false) (trace (resolve_team_id w)).
Proof.
  unfold resolve_team_id.
  destruct (if truthy _ then _ else _); [by constructor|].
  unfold requests_get. destruct (teams_reply w) as [|code body served].
  { by repeat constructor. }
  run_simpl. unfold raise_for_status. cbn [status_code].
  destruct (_ && _); run_simpl; [by repeat constructor|]. cbn [data].
  destruct (resolve_team_id_scan (get served [])) as [found|] eqn:Hscan.
  - pose proof (resolve_scan_silent _ _ Hscan) as Hsilent.
    destruct found as [tr o]. cbn in Hsilent. subst tr. by repeat constructor.
  - by repeat constructor.
Qed.

Lemma main_no_game_run w ydate team_id code body :
  result (chicago_yesterday_date w) = Returned ydate →
  result (resolve_team_id w) = Returned team_id →
  games_reply w team_id ydate = Response code body (Some []) →
  passes code →
  main w =
    (trace (resolve_team_id w)
       ++ [HttpGet (games_request_url team_id ydate) (HEADERS w);
           Printed (lit "DEBUG requesting: " ++ games_request_url team_id ydate);
           Printed (lit "No game found for date: " ++ isoformat ydate);
           Printed (lit "No Thunder game yesterday " ++ [8212%N]
                      ++ lit " nothing to post.")],
     Returned ()).
Proof.
  intros Hdate Hteam Hserved Hok. unfold main.
  rewrite (bind_result _ _ _ Hdate), chicago_yesterday_date_silent.
  rewrite (bind_result _ _ _ Hteam).
  rewrite (fetch_game_for_served _ _ _ _ _ _ Hserved Hok).
  run_simpl. cbn [get format_tweet]. run_simpl. reflexivity.
Qed.

(** C7: when the provider returns no game record for the target date,
    the fetcher returns the "no game" value, the formatter returns no
    message, and the script ends with exit status 0 without a request to
    the posting endpoint. *)
Theorem main_no_game w ydate team_id code body :
  result (chicago_yesterday_date w) = Returned ydate →
  result (resolve_team_id w) = Returned team_id →
  games_reply w team_id ydate = Response code body (Some []) →
  passes code →
  result (fetch_game_for w team_id ydate) = Returned None
  ∧ result (format_tweet None ydate team_id) = Returned None
  ∧ result (main w) = Returned ()
  ∧ exit_status (main w) = 0
  ∧ Forall (λ e, is_post e = false) (trace (main w)).
Proof.
  intros Hdate Hteam Hserved Hok.
  rewrite (main_no_game_run _ _ _ _ _ Hdate Hteam Hserved Hok).
  rewrite (fetch_game_for_served _ _ _ _ _ _ Hserved Hok).
  repeat split. cbn [trace fst]. apply Forall_app. split.
  - apply resolve_team_id_no_post.
  - by repeat constructor.
Qed.

(** A day without a game, the team id taken from the provider. *)
Lemma main_no_game_witness :
  exit_status (main (world_serving ∅ (team_json <$> [den; okc]) [])) = 0
  ∧ Forall (λ e, is_post e = false)
      (trace (main (world_serving ∅ (team_json <$> [den; okc]) []))).
Proof.
  destruct (main_no_game (world_serving ∅ (team_json <$> [den; okc]) [])
              (Date 2024 1 15) 25 200 [])
    as (_ & _ & _ & Hstatus & Hquiet).
  - reflexivity.
  - reflexivity.
  - reflexivity.
  - unfold passes. lia.
  - split; [exact Hstatus|exact Hquiet].
Defined.

End Orchestrator.

(** ** Further properties of the formatter *)

Section FormatterEdges.

Implicit Types (g : game) (d : date) (tid : Z).

Lemma numerals_fit_spec (width : nat) (bound n : Z) :
  numerals_fit width bound = true → 0 ≤ n < bound →
  length (zfill width (str_int n)) = width
  ∧ digits_val 0 (zfill width (str_int n)) = Some n.
Proof.
  unfold numerals_fit. rewrite forallb_forall. intros Hall Hn.
  specialize (Hall n). rewrite andb_true_iff, !bool_decide_eq_true in Hall.
  apply Hall, list_elem_of_In, elem_of_seqZ. lia.
Qed.

Lemma numerals_fit_2 : numerals_fit 2 100 = true.
Proof. vm_compute. reflexivity. Qed.

Lemma numerals_fit_3 : numerals_fit 3 1000 = true.
Proof. vm_compute. reflexivity. Qed.

Lemma numerals_fit_4 : numerals_fit 4 10000 = true.
Proof. vm_compute. reflexivity. Qed.

Lemma str_int_length (width : nat) (bound n : Z) :
  numerals_fit width bound = true → 0 ≤ n < bound →
  (length (str_int n) ≤ width)%nat.
Proof.
  intros Hfit Hn. destruct (numerals_fit_spec _ _ _ Hfit Hn) as [Hlen _].
  unfold zfill in Hlen. rewrite length_app, length_replicate in Hlen. lia.
Qed.

Lemma month_abbr_length m : 1 ≤ m ≤ 12 → length (month_abbr m) = 3%nat.
Proof.
  intros Hm. apply month_cases in Hm.
  destruct Hm as [->|[->|[->|[->|[->|[->|[->|[->|[->|[->|[->| ->]]]]]]]]]]];
    reflexivity.
Qed.

Lemma rendered_date_length d :
  valid_date d = true → (length (rendered_date d) ≤ 12)%nat.
Proof.
  intros (Hy & Hm & Hd)%valid_date_spec. unfold rendered_date.
  pose proof (days_in_month_bounds (year d) (month d)).
  pose proof (str_int_length 2 100 (day d) numerals_fit_2).
  pose proof (str_int_length 4 10000 (year d) numerals_fit_4).
  rewrite !length_app, (month_abbr_length _ Hm). simpl. lia.
Qed.

Lemma template_length (yes_no : pystr) d (venue full short : pystr) (ts os : Z) :
  valid_date d = true → 0 ≤ ts ≤ 999 → 0 ≤ os ≤ 999 →
  (length yes_no ≤ 3)%nat → (length venue ≤ 3)%nat →
  (length (template yes_no d venue full ts os short)
   ≤ 40 + length full + length short)%nat.
Proof.
  intros Hd Hts Hos Hyn Hvenue. unfold template.
  pose proof (rendered_date_length d Hd).
  pose proof (str_int_length 3 1000 ts numerals_fit_3).
  pose proof (str_int_length 3 1000 os numerals_fit_3).
  rewrite !length_app. simpl. lia.
Qed.

(** With a real date, scores from 0 to 999 and an opponent whose two
    names have at most 240 characters together, nothing is cut: the
    formatter returns the whole template. *)
Theorem format_tweet_uncut g d tid :
  valid_date d = true →
  0 ≤ game_home_score g ≤ 999 → 0 ≤ game_visitor_score g ≤ 999 →
  (length (team_full_name (opponent g tid))
   + length (team_name (opponent g tid)) ≤ 240)%nat →
  format_tweet (Some (game_json g)) d tid =
    ([], Returned (Some
      (template
         (if score_of_opponent g tid <? score_of_team g tid
          then lit "YES" else lit "NO")
         d (if at_home g tid then lit "vs " else lit "@ ")
         (team_full_name (opponent g tid))
         (score_of_team g tid) (score_of_opponent g tid)
         (team_name (opponent g tid))))).
Proof.
  intros Hd Hhome Haway Hnames. rewrite format_tweet_complete.
  rewrite take_ge; [done|].
  etransitivity; [apply template_length|lia]; try done.
  - unfold score_of_team. destruct (at_home g tid); lia.
  - unfold score_of_opponent. destruct (at_home g tid); lia.
  - unfold verdict. destruct (_ <? _); simpl; lia.
  - destruct (at_home g tid); simpl; lia.
Qed.

Lemma format_tweet_uncut_witness :
  format_tweet (Some (game_json over)) (Date 2024 1 15) 8 =
    ([], Returned (Some
      (template (lit "NO") (Date 2024 1 15) (lit "@ ")
         (lit "Oklahoma City Thunder") 100 120 (lit "Thunder")))).
Proof.
  apply (format_tweet_uncut over (Date 2024 1 15) 8).
  - reflexivity.
  - simpl. lia.
  - simpl. lia.
  - simpl. lia.
Defined.

Lemma format_tweet_shape (game : Game.dict) d tid :
  trace (format_tweet (Some game) d tid) = []
  ∧ ((∃ msg, result (format_tweet (Some game) d tid) = Returned (Some msg))
     ∨ (∃ key, result (format_tweet (Some game) d tid) = Raised (KeyError key)
               ∧ key ∈ formatter_keys)).
Proof.
  assert (Hkey : ∀ key, In key formatter_keys → key ∈ formatter_keys)
    by (intros key; apply list_elem_of_In).
  destruct game as [home away home_score away_score st]. unfold format_tweet.
  destruct home as [[hid hab hfull hname]|];
    [|split; [done|right; eexists; split; [done|apply Hkey; simpl; tauto]]].
  destruct away as [[aid aab afull aname]|];
    [|split; [done|right; eexists; split; [done|apply Hkey; simpl; tauto]]].
  destruct home_score as [hs|];
    [|split; [done|right; eexists; split; [done|apply Hkey; simpl; tauto]]].
  destruct away_score as [vs|];
    [|split; [done|right; eexists; split; [done|apply Hkey; simpl; tauto]]].
  destruct hid as [hid|];
    [|split; [done|right; eexists; split; [done|apply Hkey; simpl; tauto]]].
  repeat member_step. cbv zeta.
  destruct (hid =? tid).
  - destruct afull, aname; repeat member_step;
      (split; [done|]);
      first [ left; eexists; done
            | right; eexists; split; [done|apply Hkey; simpl; tauto] ].
  - destruct hfull, hname; repeat member_step;
      (split; [done|]);
      first [ left; eexists; done
            | right; eexists; split; [done|apply Hkey; simpl; tauto] ].
Qed.

(** On a JSON object whose members, where present, have the types of
    the data model (integer ids and scores, string names, team objects: what
    [Game.dict] holds), the formatter prints nothing.  It returns a text,
    or it raises KeyError for one of the seven keys it reads with [d[k]];
    it never exits the process. *)
Theorem format_tweet_outcome (game : Game.dict) d tid :
  trace (format_tweet (Some game) d tid) = []
  ∧ ((∃ msg, result (format_tweet (Some game) d tid) = Returned (Some msg))
     ∨ (∃ key, result (format_tweet (Some game) d tid) = Raised (KeyError key)
               ∧ key ∈ formatter_keys)).
Proof. apply format_tweet_shape. Qed.

(** The formatter returns "no message" exactly when it is given "no
    game": the no-op branch of the orchestrator is taken for no other
    reason. *)
Theorem format_tweet_no_message (game : option Game.dict) d tid :
  result (format_tweet game d tid) = Returned None ↔ game = None.
Proof.
  split; [|by intros ->].
  destruct game as [game|]; [|done]. intros Hnone.
  destruct (format_tweet_shape game d tid) as [_ [[msg Hmsg]|(key & Hkey & _)]];
    congruence.
Qed.

Lemma format_tweet_no_message_witness :
  result (format_tweet None (Date 2024 1 15) 25) = Returned None.
Proof. by apply (format_tweet_no_message None (Date 2024 1 15) 25). Defined.

End FormatterEdges.

(** ** Further properties of the game fetcher *)

Section FetcherEdges.

Implicit Types (w : world) (g : Game.dict) (d : date) (tid : Z).

Lemma passes_or_not (code : Z) : passes code ∨ 400 ≤ code < 600.
Proof. unfold passes. lia. Qed.

Lemma raise_for_status_refuses {A} (r : response A) :
  400 ≤ status_code r < 600 →
  raise_for_status r = raise (HTTPError (status_code r)).
Proof.
  unfold raise_for_status. intros Hcode.
  destruct (Z.leb_spec 400 (status_code r)), (Z.ltb_spec (status_code r) 600);
    simpl; try done; lia.
Qed.

Lemma fetch_game_for_unreachable w tid d :
  games_reply w tid d = Unreachable →
  fetch_game_for w tid d =
    ([HttpGet (games_request_url tid d) (HEADERS w)], Raised ConnectionError).
Proof. intros Hserved. unfold fetch_game_for, requests_get. by rewrite Hserved. Qed.

Lemma fetch_game_for_refused w tid d code body served :
  games_reply w tid d = Response code body served →
  400 ≤ code < 600 →
  fetch_game_for w tid d =
    ([HttpGet (games_request_url tid d) (HEADERS w);
      Printed (lit "DEBUG requesting: " ++ games_request_url tid d)],
     Raised (HTTPError code)).
Proof.
  intros Hserved Hcode. unfold fetch_game_for, requests_get. rewrite Hserved.
  run_simpl. by rewrite (raise_for_status_refuses (Resp code body served) Hcode).
Qed.

(** Errors of the games request are not caught.  When no answer comes,
    the fetcher raises at once; when the answer has a status from 400 to
    599 it first prints the DEBUG line with the URL and then raises the
    HTTP error.  In neither case does it return a game. *)
Theorem fetch_game_for_errors w tid d :
  (games_reply w tid d = Unreachable →
   fetch_game_for w tid d =
     ([HttpGet (games_request_url tid d) (HEADERS w)], Raised ConnectionError))
  ∧ (∀ code body served,
       games_reply w tid d = Response code body served →
       400 ≤ code < 600 →
       fetch_game_for w tid d =
         ([HttpGet (games_request_url tid d) (HEADERS w);
           Printed (lit "DEBUG requesting: " ++ games_request_url tid d)],
          Raised (HTTPError code))).
Proof.
  split; [apply fetch_game_for_unreachable|].
  intros code body served. apply fetch_game_for_refused.
Qed.

Lemma fetch_game_for_errors_witness :
  result (fetch_game_for world_games_down 25 (Date 2024 1 15))
    = Raised ConnectionError
  ∧ result (fetch_game_for world_games_refusing 25 (Date 2024 1 15))
    = Raised (HTTPError 429).
Proof.
  split.
  - rewrite (proj1 (fetch_game_for_errors world_games_down 25 (Date 2024 1 15)));
      reflexivity.
  - rewrite (proj2 (fetch_game_for_errors world_games_refusing 25
                      (Date 2024 1 15))
               429 (lit "Too many requests") None); [reflexivity..|lia].
Defined.

Lemma scan_member (games : list Game.dict) g :
  fetch_game_for_scan games = Some g → g ∈ games.
Proof.
  intros (i & Hi & _)%scan_found. by apply list_elem_of_lookup_2 in Hi.
Qed.

(** Of an answer that passes, the fetcher returns "no game" exactly when
    the answer holds no record (an empty "data" list, or none at all), and
    any game it returns is one of the records of the answer. *)
Theorem fetch_game_for_member w tid d code body served :
  games_reply w tid d = Response code body served →
  passes code →
  (result (fetch_game_for w tid d) = Returned None ↔ get served [] = [])
  ∧ (∀ g, result (fetch_game_for w tid d) = Returned (Some g) →
          g ∈ get served []).
Proof.
  intros Hserved Hok.
  rewrite (fetch_game_for_served _ _ _ _ _ _ Hserved Hok). cbn [result snd].
  destruct (get served []) as [|first rest]; [by split|].
  split; [by split|].
  destruct (fetch_game_for_scan (first :: rest)) as [chosen|] eqn:Hscan;
    cbn [default from_option]; intros g [= <-].
  - by apply scan_member.
  - by left.
Qed.

Lemma fetch_game_for_member_witness :
  game_json under_way ∈ [game_json under_way; game_json over].
Proof.
  apply (proj2 (fetch_game_for_member
                  (world_serving ∅ [] [game_json under_way; game_json over])
                  25 (Date 2024 1 15) 200 []
                  (Some [game_json under_way; game_json over])
                  eq_refl ltac:(unfold passes; lia))
           (game_json under_way)).
  reflexivity.
Defined.

Lemma fetch_game_for_shape w tid d :
  requests (trace (fetch_game_for w tid d)) =
    [HttpGet (games_request_url tid d) (HEADERS w)]
  ∧ posted (trace (fetch_game_for w tid d)) = []
  ∧ ∀ code, result (fetch_game_for w tid d) ≠ Exited code.
Proof.
  destruct (games_reply w tid d) as [|code body served] eqn:Hserved.
  - by rewrite (fetch_game_for_unreachable _ _ _ Hserved).
  - destruct (passes_or_not code) as [Hok|Hcode].
    + by rewrite (fetch_game_for_served _ _ _ _ _ _ Hserved Hok).
    + by rewrite (fetch_game_for_refused _ _ _ _ _ _ Hserved Hcode).
Qed.

(** Whatever the world, the fetcher makes exactly one request, the GET of
    the games URL built from the team id and the date; it posts nothing
    and never exits the process. *)
Theorem fetch_game_for_one_request w tid d :
  requests (trace (fetch_game_for w tid d)) =
    [HttpGet (games_request_url tid d) (HEADERS w)]
  ∧ posted (trace (fetch_game_for w tid d)) = []
  ∧ ∀ code, result (fetch_game_for w tid d) ≠ Exited code.
Proof. apply fetch_game_for_shape. Qed.

(** When the answer holds a single record, that record is the game,
    whatever its status and its scores: a game that has not started is
    returned like a finished one. *)
Theorem fetch_game_for_single w tid d code body g :
  games_reply w tid d = Response code body (Some [g]) →
  passes code →
  result (fetch_game_for w tid d) = Returned (Some g).
Proof.
  intros Hserved Hok. rewrite (fetch_game_for_list _ _ _ _ _ _ _ Hserved Hok).
  rewrite scan_cons. by case_decide.
Qed.

Lemma fetch_game_for_single_witness :
  result (fetch_game_for
            (world_serving ∅ [] [game_json (Game okc den 0 0 (lit "7:00 pm ET"))])
            25 (Date 2024 1 15))
  = Returned (Some (game_json (Game okc den 0 0 (lit "7:00 pm ET")))).
Proof.
  apply (fetch_game_for_single
           (world_serving ∅ [] [game_json (Game okc den 0 0 (lit "7:00 pm ET"))])
           25 (Date 2024 1 15) 200 []).
  - reflexivity.
  - unfold passes. lia.
Defined.

End FetcherEdges.

(** ** Further properties of the team resolver *)

Section ResolverEdges.

Implicit Types (w : world) (t : Team.dict) (teams : list Team.dict).

Lemma no_team_override_spec w :
  (if truthy (getenv w "TEAM_ID")
   then getenv w "TEAM_ID" ≫= int (python w) else None) = None
  ↔ no_team_override w.
Proof.
  split; [|apply no_team_override_unparsed].
  unfold no_team_override. destruct (getenv w "TEAM_ID") as [[|c s]|]; simpl.
  - intros _. right. by left.
  - intros Hint. right. right. by exists (c :: s).
  - by left.
Qed.

Lemma resolve_team_id_unreachable w :
  no_team_override w →
  teams_reply w = Unreachable →
  resolve_team_id w = ([HttpGet TEAMS_URL (HEADERS w)], Raised ConnectionError).
Proof.
  intros Hno%no_team_override_spec Hserved. unfold resolve_team_id.
  rewrite Hno. unfold requests_get. by rewrite Hserved.
Qed.

Lemma resolve_team_id_refused w code body served :
  no_team_override w →
  teams_reply w = Response code body served →
  400 ≤ code < 600 →
  resolve_team_id w = ([HttpGet TEAMS_URL (HEADERS w)], Raised (HTTPError code)).
Proof.
  intros Hno%no_team_override_spec Hserved Hcode. unfold resolve_team_id.
  rewrite Hno. unfold requests_get. rewrite Hserved. run_simpl.
  by rewrite (raise_for_status_refuses (Resp code body served) Hcode).
Qed.

Lemma team_scan_cons t teams :
  resolve_team_id_scan (t :: teams) =
    if decide (names_thunder t) then Some (getitem "id" (Team.id t))
    else resolve_team_id_scan teams.
Proof.
  cbn [resolve_team_id_scan]. unfold names_thunder, TEAM_ABBR, TEAM_CITY_FULL.
  case_decide as Hm.
  - destruct Hm as [Hab | Hfull].
    + by rewrite (bool_decide_eq_true_2 _ Hab).
    + rewrite (bool_decide_eq_true_2 _ Hfull). by rewrite orb_true_r.
  - rewrite !bool_decide_eq_false_2; [done|tauto..].
Qed.

Lemma team_scan_first pre t post :
  (∀ t', t' ∈ pre → ¬ names_thunder t') →
  names_thunder t →
  resolve_team_id_scan (pre ++ t :: post) = Some (getitem "id" (Team.id t)).
Proof.
  intros Hpre Ht. induction pre as [|t0 pre IH]; cbn [app].
  - by rewrite team_scan_cons, decide_True.
  - rewrite team_scan_cons, decide_False.
    + apply IH. intros t' Hin. apply Hpre. by right.
    + apply Hpre. by left.
Qed.

(** Without an override (TEAM_ID absent, empty, or refused by [int]),
    the errors of the teams request are not caught,
    and an answer without a "data" member counts as an empty list: no
    answer raises at once, a status from 400 to 599 raises the HTTP
    error, and a passing answer without "data" ends in the "could not
    resolve" message and exit status 1. *)
Theorem resolve_team_id_errors w :
  no_team_override w →
  (teams_reply w = Unreachable →
   resolve_team_id w =
     ([HttpGet TEAMS_URL (HEADERS w)], Raised ConnectionError))
  ∧ (∀ code body served,
       teams_reply w = Response code body served → 400 ≤ code < 600 →
       resolve_team_id w =
         ([HttpGet TEAMS_URL (HEADERS w)], Raised (HTTPError code)))
  ∧ (∀ code body,
       teams_reply w = Response code body None → passes code →
       resolve_team_id w =
         ([HttpGet TEAMS_URL (HEADERS w);
           Printed (lit "Could not resolve team_id for Oklahoma City Thunder / OKC")],
          Exited 1)).
Proof.
  intros Hno. split; [|split].
  - by apply resolve_team_id_unreachable.
  - intros code body served. by apply resolve_team_id_refused.
  - intros code body Hserved Hok.
    by rewrite (resolve_team_id_asks _ _ _ _ Hno Hserved Hok).
Qed.

Lemma resolve_team_id_errors_witness :
  result (resolve_team_id (world_teams Unreachable)) = Raised ConnectionError
  ∧ result (resolve_team_id (world_teams (Response 503 [] None)))
    = Raised (HTTPError 503)
  ∧ result (resolve_team_id (world_teams (Response 200 [] None))) = Exited 1.
Proof.
  assert (Hno : ∀ served, no_team_override (world_teams served))
    by (intros served; left; apply lookup_empty).
  split; [|split].
  - rewrite (proj1 (resolve_team_id_errors (world_teams Unreachable) (Hno _)));
      reflexivity.
  - rewrite (proj1 (proj2 (resolve_team_id_errors
                             (world_teams (Response 503 [] None)) (Hno _)))
               503 [] None); [reflexivity..|lia].
  - rewrite (proj2 (proj2 (resolve_team_id_errors
                             (world_teams (Response 200 [] None)) (Hno _)))
               200 []); [reflexivity..|unfold passes; lia].
Defined.

(** Without an override (TEAM_ID absent, empty, or refused by [int]),
    only the first team object that names the team counts, on any list of
    JSON objects: when it has an "id", that id is returned; when it has
    none, the resolver raises KeyError for "id", and no later object is
    looked at. *)
Theorem resolve_team_id_first_match w code body pre t post :
  no_team_override w →
  teams_reply w = Response code body (Some (pre ++ t :: post)) →
  passes code →
  (∀ t', t' ∈ pre → ¬ names_thunder t') →
  names_thunder t →
  resolve_team_id w =
    ([HttpGet TEAMS_URL (HEADERS w)],
     match Team.id t with
     | Some n => Returned n
     | None => Raised (KeyError "id")
     end).
Proof.
  intros Hno Hserved Hok Hpre Ht.
  rewrite (resolve_team_id_asks _ _ _ _ Hno Hserved Hok). cbn [get].
  rewrite (team_scan_first _ _ _ Hpre Ht). by destruct (Team.id t).
Qed.

Lemma resolve_team_id_first_match_witness :
  result (resolve_team_id
            (world_teams (Response 200 []
                            (Some [team_json den; okc_without_id; team_json okc]))))
  = Raised (KeyError "id").
Proof.
  rewrite (resolve_team_id_first_match
             (world_teams (Response 200 []
                             (Some [team_json den; okc_without_id; team_json okc])))
             200 [] [team_json den] okc_without_id [team_json okc]).
  - reflexivity.
  - left. apply lookup_empty.
  - reflexivity.
  - unfold passes. lia.
  - intros t' Hin. apply list_elem_of_singleton in Hin. subst t'.
    intros [Hab | Hfull]; discriminate.
  - by left.
Defined.

Lemma resolve_team_id_shape w :
  (requests (trace (resolve_team_id w)) = []
   ∨ requests (trace (resolve_team_id w)) = [HttpGet TEAMS_URL (HEADERS w)])
  ∧ posted (trace (resolve_team_id w)) = []
  ∧ ∀ code, result (resolve_team_id w) = Exited code → code = 1.
Proof.
  destruct (if truthy (getenv w "TEAM_ID")
            then getenv w "TEAM_ID" ≫= int (python w)
            else None) as [n|] eqn:Hparse.
  { unfold resolve_team_id. rewrite Hparse. split; [by left|done]. }
  apply no_team_override_spec in Hparse.
  destruct (teams_reply w) as [|code body served] eqn:Hserved.
  { rewrite (resolve_team_id_unreachable _ Hparse Hserved).
    split; [by right|done]. }
  destruct (passes_or_not code) as [Hok|Hcode].
  - rewrite (resolve_team_id_asks _ _ _ _ Hparse Hserved Hok).
    destruct (resolve_team_id_scan (get served [])) as [found|] eqn:Hscan.
    + rewrite (resolve_scan_silent _ _ Hscan).
      split; [by right|]. split; [done|].
      cbn [result snd]. clear -Hscan. revert Hscan.
      induction (get served []) as [|t teams IH]; [done|].
      cbn [resolve_team_id_scan]. destruct (_ || _); [|done].
      intros [= <-] c. by destruct (Team.id t).
    + split; [by right|]. split; [done|]. by intros c [= <-].
  - rewrite (resolve_team_id_refused _ _ _ _ Hparse Hserved Hcode).
    split; [by right|done].
Qed.

(** Whatever the world, the resolver makes no request or the one GET of
    the teams URL, posts nothing, and exits the process with no status
    other than 1. *)
Theorem resolve_team_id_requests w :
  (requests (trace (resolve_team_id w)) = []
   ∨ requests (trace (resolve_team_id w)) = [HttpGet TEAMS_URL (HEADERS w)])
  ∧ posted (trace (resolve_team_id w)) = []
  ∧ ∀ code, result (resolve_team_id w) = Exited code → code = 1.
Proof. apply resolve_team_id_shape. Qed.

End ResolverEdges.

(** ** Further properties of the date resolver *)

Section DateEdges.

Implicit Types (w : world) (d : date).

Lemma four_characters (s : pystr) :
  length s = 4%nat → ∃ a b c e, s = [a; b; c; e].
Proof.
  destruct s as [|a [|b [|c [|e [|? ?]]]]]; try discriminate. by exists a, b, c, e.
Qed.

Lemma two_characters (s : pystr) : length s = 2%nat → ∃ a b, s = [a; b].
Proof. destruct s as [|a [|b [|? ?]]]; try discriminate. by exists a, b. Qed.

Lemma iso_extended_isoformat d :
  valid_date d = true → iso_extended (isoformat d) = Some d.
Proof.
  intros Hvalid. pose proof Hvalid as (Hy & Hm & Hd)%valid_date_spec.
  pose proof (days_in_month_bounds (year d) (month d)) as Hdim.
  destruct d as [y m dd]. cbn [year month day] in *.
  destruct (numerals_fit_spec 4 10000 y numerals_fit_4) as [Hly Hvy]; [lia|].
  destruct (numerals_fit_spec 2 100 m numerals_fit_2) as [Hlm Hvm]; [lia|].
  destruct (numerals_fit_spec 2 100 dd numerals_fit_2) as [Hld Hvd]; [lia|].
  unfold isoformat. cbn [year month day].
  destruct (four_characters _ Hly) as (y1 & y2 & y3 & y4 & Hys).
  destruct (two_characters _ Hlm) as (m1 & m2 & Hms).
  destruct (two_characters _ Hld) as (d1 & d2 & Hds).
  rewrite Hys in Hvy |- *. rewrite Hms in Hvm |- *. rewrite Hds in Hvd |- *.
  change (lit "-") with [45%N]. cbn [app iso_extended].
  rewrite Hvy, Hvm, Hvd. cbn [mbind option_bind]. by rewrite Hvalid.
Qed.

(** The date resolver returns only dates that exist: when the clock
    reads a date of the calendar, whatever the resolver returns, forced or
    computed, is a date of the calendar too. *)
Theorem chicago_yesterday_date_valid w d :
  valid_date (dt_date (now_chicago w)) = true →
  result (chicago_yesterday_date w) = Returned d →
  valid_date d = true.
Proof.
  intros Hclock. unfold chicago_yesterday_date.
  destruct (if truthy (getenv w "FORCE_DATE")
            then getenv w "FORCE_DATE" ≫= fromisoformat (python w) else None)
    as [forced|] eqn:Hforce.
  - intros [= <-]. destruct (truthy _); [|done].
    destruct (getenv w "FORCE_DATE") as [s|]; [|done].
    by apply (fromisoformat_date (python w) s).
  - unfold sub_one_day.
    destruct (Z.ltb_spec (toordinal (dt_date (now_chicago w)) - 1) 1);
      [done|].
    intros [= <-]. apply pred_day_spec; [done|lia].
Qed.

Lemma chicago_yesterday_date_valid_witness :
  valid_date (Date 2023 12 31) = true.
Proof.
  apply (chicago_yesterday_date_valid (world_on (Date 2024 1 1) None)).
  - reflexivity.
  - reflexivity.
Defined.

(** A date written by the script can be given back to it: for every date
    of the calendar, FORCE_DATE set to the ISO form of the date (the form
    of the DEBUG line and of the "No game found" line) makes the resolver
    return that date. *)
Theorem chicago_yesterday_date_replay w d :
  valid_date d = true →
  getenv w "FORCE_DATE" = Some (isoformat d) →
  chicago_yesterday_date w = ([], Returned d).
Proof.
  intros Hvalid Henv.
  pose proof (iso_extended_isoformat d Hvalid) as Hread.
  apply (chicago_yesterday_date_forced w (isoformat d)); [done| |].
  - intros Hempty. by rewrite Hempty in Hread.
  - by apply fromisoformat_extended.
Qed.

Lemma chicago_yesterday_date_replay_witness :
  chicago_yesterday_date
    (world_on (Date 2024 1 16) (Some (isoformat (Date 987 6 5))))
  = ([], Returned (Date 987 6 5)).
Proof.
  apply (chicago_yesterday_date_replay
           (world_on (Date 2024 1 16) (Some (isoformat (Date 987 6 5))))
           (Date 987 6 5)).
  - reflexivity.
  - reflexivity.
Defined.

End DateEdges.

(** ** Further properties of the publisher *)

Section PublisherEdges.

Implicit Types (w : world) (tweet : pystr).

Lemma credentials_set_spec w :
  all_truthy [API_KEY w; API_SECRET w; ACCESS_TOKEN w; ACCESS_SECRET w] = true
  ↔ credentials_set w.
Proof.
  unfold credentials_set, all_truthy, API_KEY, API_SECRET, ACCESS_TOKEN,
    ACCESS_SECRET.
  cbn [forallb]. rewrite !andb_true_iff. tauto.
Qed.

Lemma post_to_x_without_credentials w tweet :
  ¬ credentials_set w →
  post_to_x w tweet =
    ([Printed (lit "Missing one or more Twitter credentials in environment variables.")],
     Exited 1).
Proof.
  rewrite <- credentials_set_spec. intros Hnot%not_true_is_false.
  unfold post_to_x. by rewrite Hnot.
Qed.

Lemma post_to_x_with_credentials w tweet :
  credentials_set w →
  post_to_x w tweet =
    match tweets_reply w tweet with
    | Unreachable => ([tweet_request w tweet], Raised ConnectionError)
    | Response code body data =>
        if 400 <=? code
        then ([tweet_request w tweet;
               Printed (lit "Twitter post failed [" ++ str_int code
                          ++ lit "]: " ++ body)],
              Exited 1)
        else ([tweet_request w tweet;
               Printed (lit "Tweet posted: " ++ printed_id data)],
              Returned ())
    end.
Proof.
  rewrite <- credentials_set_spec. intros Hset.
  unfold post_to_x. rewrite Hset. cbn [negb]. rewrite bind_returned.
  unfold requests_post. destruct (tweets_reply w tweet) as [|code body answer];
    [done|].
  run_simpl. cbn [status_code text data].
  destruct (400 <=? code); [done|]. run_simpl.
  by destruct answer as [[tid|]|].
Qed.

(** With the four credentials set and an answer whose status is below
    400, the publisher makes one request, the POST of the text as it was
    given, prints the identifier of the answer ("None" when it has none)
    and returns. *)
Theorem post_to_x_accepted w tweet code body data :
  credentials_set w →
  tweets_reply w tweet = Response code body data →
  code < 400 →
  post_to_x w tweet =
    ([tweet_request w tweet;
      Printed (lit "Tweet posted: " ++ printed_id data)],
     Returned ()).
Proof.
  intros Hset Hanswer Hcode.
  rewrite (post_to_x_with_credentials _ _ Hset), Hanswer.
  destruct (Z.leb_spec 400 code); [lia|done].
Qed.

Lemma post_to_x_accepted_witness :
  post_to_x (world_posting env_credentials (Response 201 [] (Some None)))
    (lit "YES")
  = ([tweet_request
        (world_posting env_credentials (Response 201 [] (Some None)))
        (lit "YES");
      Printed (lit "Tweet posted: None")],
     Returned ()).
Proof.
  apply (post_to_x_accepted
           (world_posting env_credentials (Response 201 [] (Some None)))
           (lit "YES") 201 [] (Some None)).
  - repeat split.
  - reflexivity.
  - lia.
Defined.

(** A post that fails is reported, after the request was made: an
    answer with status 400 or more, however large, gives the message with
    the status and the body of the answer and exit status 1; no answer
    raises the connection error. *)
Theorem post_to_x_rejected w tweet :
  credentials_set w →
  (∀ code body data,
     tweets_reply w tweet = Response code body data → 400 ≤ code →
     post_to_x w tweet =
       ([tweet_request w tweet;
         Printed (lit "Twitter post failed [" ++ str_int code ++ lit "]: "
                    ++ body)],
        Exited 1))
  ∧ (tweets_reply w tweet = Unreachable →
     post_to_x w tweet = ([tweet_request w tweet], Raised ConnectionError)).
Proof.
  intros Hset. rewrite (post_to_x_with_credentials _ _ Hset). split.
  - intros code body data -> Hcode.
    destruct (Z.leb_spec 400 code); [done|lia].
  - by intros ->.
Qed.

Lemma post_to_x_rejected_witness :
  post_to_x
    (world_posting env_credentials (Response 403 (lit "Forbidden") None))
    (lit "YES")
  = ([tweet_request
        (world_posting env_credentials (Response 403 (lit "Forbidden") None))
        (lit "YES");
      Printed (lit "Twitter post failed [403]: Forbidden")],
     Exited 1).
Proof.
  apply (proj1 (post_to_x_rejected
                  (world_posting env_credentials
                     (Response 403 (lit "Forbidden") None))
                  (lit "YES") ltac:(repeat split))
           403 (lit "Forbidden") None).
  - reflexivity.
  - lia.
Defined.

(** A credential that is set but empty counts as missing: unless the
    four credentials are all there and none is empty, the publisher
    prints its message and exits with status 1 without a request. *)
Theorem post_to_x_empty_credential w tweet :
  ¬ credentials_set w →
  post_to_x w tweet =
    ([Printed (lit "Missing one or more Twitter credentials in environment variables.")],
     Exited 1)
  ∧ requests (trace (post_to_x w tweet)) = [].
Proof.
  intros Hnot. by rewrite (post_to_x_without_credentials _ _ Hnot).
Qed.

Lemma post_to_x_empty_credential_witness :
  result (post_to_x (world_posting env_empty_credential Unreachable) (lit "YES"))
  = Exited 1.
Proof.
  assert (Hnot : ¬ credentials_set
                    (world_posting env_empty_credential Unreachable)).
  { intros (_ & _ & _ & Hfourth). discriminate Hfourth. }
  rewrite (proj1 (post_to_x_empty_credential
                    (world_posting env_empty_credential Unreachable)
                    (lit "YES") Hnot)).
  reflexivity.
Defined.

(** Whatever the world, the publisher sends at most one text, the text
    it was given, unchanged, and it sends it exactly when the four
    credentials are set; it exits with no status other than 1. *)
Theorem post_to_x_requests w tweet :
  (credentials_set w →
   requests (trace (post_to_x w tweet)) = [tweet_request w tweet]
   ∧ posted (trace (post_to_x w tweet)) = [tweet])
  ∧ (¬ credentials_set w →
     requests (trace (post_to_x w tweet)) = []
     ∧ posted (trace (post_to_x w tweet)) = [])
  ∧ ∀ code, result (post_to_x w tweet) = Exited code → code = 1.
Proof.
  assert (Hdec : credentials_set w ∨ ¬ credentials_set w).
  { rewrite <- credentials_set_spec. destruct (all_truthy _); [by left|by right]. }
  split; [|split].
  - intros Hset. rewrite (post_to_x_with_credentials _ _ Hset).
    destruct (tweets_reply w tweet) as [|code body data]; [done|].
    by destruct (400 <=? code).
  - intros Hnot. by rewrite (post_to_x_without_credentials _ _ Hnot).
  - intros c. destruct Hdec as [Hset|Hnot].
    + rewrite (post_to_x_with_credentials _ _ Hset).
      destruct (tweets_reply w tweet) as [|code body data]; [done|].
      destruct (400 <=? code); [|done]. by intros [= <-].
    + rewrite (post_to_x_without_credentials _ _ Hnot). by intros [= <-].
Qed.

Lemma post_to_x_requests_witness :
  posted (trace (post_to_x
                   (world_posting env_credentials (Response 500 [] None))
                   (lit "NO"))) = [lit "NO"].
Proof.
  apply (proj1 (post_to_x_requests
                  (world_posting env_credentials (Response 500 [] None))
                  (lit "NO"))).
  repeat split.
Defined.

End PublisherEdges.

(** ** Further properties of the orchestrator *)

Section OrchestratorEdges.

Implicit Types (w : world) (d : date) (tid : Z).

Lemma posted_app (tr1 tr2 : list event) :
  posted (tr1 ++ tr2) = posted tr1 ++ posted tr2.
Proof. apply omap_app. Qed.

Lemma chicago_yesterday_date_shape w :
  (∃ d, chicago_yesterday_date w = ([], Returned d))
  ∨ chicago_yesterday_date w = ([], Raised OverflowError).
Proof.
  unfold chicago_yesterday_date.
  destruct (if truthy _ then _ else _) as [d|]; [left; by exists d|].
  destruct (sub_one_day _) as [yday|]; [left; by eexists|by right].
Qed.

(** The rest of [main] once the game is fetched. *)
Lemma main_fetched w ydate tid (game : option Game.dict) :
  result (chicago_yesterday_date w) = Returned ydate →
  result (resolve_team_id w) = Returned tid →
  result (fetch_game_for w tid ydate) = Returned game →
  main w =
    (trace (resolve_team_id w) ++ trace (fetch_game_for w tid ydate)
       ++ trace (format_tweet game ydate tid ≫= λ tweet,
                   match tweet with
                   | None => print nothing_to_post
                   | Some tweet => post_to_x w tweet
                   end),
     result (format_tweet game ydate tid ≫= λ tweet,
               match tweet with
               | None => print nothing_to_post
               | Some tweet => post_to_x w tweet
               end)).
Proof.
  intros Hdate Hteam Hgame. unfold main.
  rewrite (bind_result _ _ _ Hdate), chicago_yesterday_date_silent.
  rewrite (bind_result _ _ _ Hteam), (bind_result _ _ _ Hgame).
  reflexivity.
Qed.

Lemma main_formatted w ydate tid (game : Game.dict) (msg : pystr) :
  result (chicago_yesterday_date w) = Returned ydate →
  result (resolve_team_id w) = Returned tid →
  result (fetch_game_for w tid ydate) = Returned (Some game) →
  format_tweet (Some game) ydate tid = ([], Returned (Some msg)) →
  main w =
    (trace (resolve_team_id w) ++ trace (fetch_game_for w tid ydate)
       ++ trace (post_to_x w msg),
     result (post_to_x w msg)).
Proof.
  intros Hdate Hteam Hgame Hmsg.
  rewrite (main_fetched _ _ _ _ Hdate Hteam Hgame), Hmsg. reflexivity.
Qed.

Lemma main_unformatted w ydate tid (game : Game.dict) (e : exn) :
  result (chicago_yesterday_date w) = Returned ydate →
  result (resolve_team_id w) = Returned tid →
  result (fetch_game_for w tid ydate) = Returned (Some game) →
  format_tweet (Some game) ydate tid = ([], Raised e) →
  main w =
    (trace (resolve_team_id w) ++ trace (fetch_game_for w tid ydate),
     Raised e).
Proof.
  intros Hdate Hteam Hgame Hmsg.
  rewrite (main_fetched _ _ _ _ Hdate Hteam Hgame), Hmsg.
  cbn [mbind run_bind trace result fst snd]. by rewrite app_nil_r.
Qed.

Lemma bind_exited_result {A B} (r : run A) (c : Z) (f : A → run B) :
  result r = Exited c → (r ≫= f) = (trace r, Exited c).
Proof. destruct r as [tr o]. simpl. by intros ->. Qed.

Lemma bind_raised_result {A B} (r : run A) (e : exn) (f : A → run B) :
  result r = Raised e → (r ≫= f) = (trace r, Raised e).
Proof. destruct r as [tr o]. simpl. by intros ->. Qed.

Lemma format_tweet_message_for (g : game) d tid :
  format_tweet (Some (game_json g)) d tid =
    ([], Returned (Some (message_for g d tid))).
Proof. apply format_tweet_complete. Qed.

(** Every run of [main] either stops before the publisher, having
    posted nothing, or hands one text of at most 280 characters to the
    publisher and ends as the publisher ends. *)
Lemma main_shape w :
  (posted (trace (main w)) = []
   ∧ (∀ c, result (main w) = Exited c → c = 1)
   ∧ (result (main w) = Returned () →
      ∃ tr, trace (main w) = tr ++ [Printed nothing_to_post]))
  ∨ (∃ tr (msg : pystr),
       posted tr = [] ∧ (length msg ≤ 280)%nat
       ∧ main w = (tr ++ trace (post_to_x w msg), result (post_to_x w msg))).
Proof.
  destruct (chicago_yesterday_date_shape w) as [[ydate Hdate]|Hdate].
  2:{ left. unfold main. rewrite Hdate. by repeat split. }
  assert (Hd : result (chicago_yesterday_date w) = Returned ydate)
    by by rewrite Hdate.
  destruct (resolve_team_id_shape w) as (_ & Hquiet2 & Hexit2).
  destruct (result (resolve_team_id w)) as [tid|c|e] eqn:Hteam.
  2:{ left. unfold main. rewrite (bind_result _ _ _ Hd).
      rewrite (bind_exited_result _ _ _ Hteam), chicago_yesterday_date_silent.
      cbn [trace result fst snd app]. split; [done|].
      split; [|done]. intros c' [= <-]. by apply Hexit2. }
  2:{ left. unfold main. rewrite (bind_result _ _ _ Hd).
      rewrite (bind_raised_result _ _ _ Hteam), chicago_yesterday_date_silent.
      cbn [trace result fst snd app]. by repeat split. }
  destruct (fetch_game_for_shape w tid ydate) as (_ & Hquiet3 & Hexit3).
  destruct (result (fetch_game_for w tid ydate)) as [game|c|e] eqn:Hgame.
  2:{ by destruct (Hexit3 c). }
  2:{ left. unfold main. rewrite (bind_result _ _ _ Hd).
      rewrite (bind_result _ _ _ Hteam), (bind_raised_result _ _ _ Hgame).
      rewrite chicago_yesterday_date_silent.
      cbn [trace result fst snd app]. rewrite posted_app, Hquiet2, Hquiet3.
      by repeat split. }
  rewrite (main_fetched _ _ _ _ Hd Hteam Hgame).
  destruct game as [game|].
  - destruct (format_tweet_shape game ydate tid)
      as [Hsilent [[msg Hmsg]|(key & Hkey & _)]].
    + right. exists (trace (resolve_team_id w)
                       ++ trace (fetch_game_for w tid ydate)), msg.
      split; [by rewrite posted_app, Hquiet2, Hquiet3|].
      split; [by apply (format_tweet_at_most_280 (Some game) ydate tid)|].
      destruct (format_tweet (Some game) ydate tid) as [tr o].
      cbn [trace result fst snd] in Hsilent, Hmsg. subst tr o.
      cbn [mbind run_bind trace result fst snd app]. by rewrite app_assoc.
    + left. destruct (format_tweet (Some game) ydate tid) as [tr o].
      cbn [trace result fst snd] in Hsilent, Hkey. subst tr o.
      cbn [mbind run_bind trace result fst snd app].
      rewrite !posted_app, Hquiet2, Hquiet3. by repeat split.
  - left. cbn [format_tweet]. run_simpl.
    rewrite !posted_app, Hquiet2, Hquiet3. split; [done|]. split; [done|].
    intros _.
    exists (trace (resolve_team_id w) ++ trace (fetch_game_for w tid ydate)
              ++ [Printed (lit "No game found for date: " ++ isoformat ydate)]).
    by rewrite <- !app_assoc.
Qed.

Lemma post_to_x_posted w (msg : pystr) :
  (credentials_set w ∧ posted (trace (post_to_x w msg)) = [msg])
  ∨ (¬ credentials_set w ∧ post_to_x w msg =
       ([Printed (lit "Missing one or more Twitter credentials in environment variables.")],
        Exited 1)).
Proof.
  assert (Hdec : credentials_set w ∨ ¬ credentials_set w).
  { rewrite <- credentials_set_spec. destruct (all_truthy _); [by left|by right]. }
  destruct Hdec as [Hset|Hnot].
  - left. split; [done|]. rewrite (post_to_x_with_credentials _ _ Hset).
    destruct (tweets_reply w msg) as [|code body answer]; [done|].
    by destruct (400 <=? code).
  - right. split; [done|]. by apply post_to_x_without_credentials.
Qed.

(** Whatever the world, a run of the script sends at most one text to
    the posting endpoint; a text it sends has at most 280 characters, and
    is sent only with the four credentials set. *)
Theorem main_posts_at_most_once w :
  posted (trace (main w)) = []
  ∨ ∃ msg : pystr,
      posted (trace (main w)) = [msg] ∧ (length msg ≤ 280)%nat
      ∧ credentials_set w.
Proof.
  destruct (main_shape w) as [(Hquiet & _)|(tr & msg & Hquiet & Hlen & ->)];
    [by left|].
  cbn [trace fst]. rewrite posted_app, Hquiet.
  destruct (post_to_x_posted w msg) as [[Hset ->]|[_ ->]]; [|by left].
  right. by exists msg.
Qed.

(** The exit status of the script is 0 or 1, and it is 0 in two cases
    only: the run ended on the "nothing to post" line, having posted
    nothing, or it posted one text and the posting endpoint answered that
    text with a status below 400. *)
Theorem main_exit_status w :
  (exit_status (main w) = 0 ∨ exit_status (main w) = 1)
  ∧ (exit_status (main w) = 0 →
     (posted (trace (main w)) = []
      ∧ ∃ tr, trace (main w) = tr ++ [Printed nothing_to_post])
     ∨ (∃ (msg : pystr) code body answer,
          posted (trace (main w)) = [msg]
          ∧ tweets_reply w msg = Response code body answer ∧ code < 400)).
Proof.
  destruct (main_shape w)
    as [(Hquiet & Hexit & Hend)|(tr & msg & Hquiet & _ & Hmain)].
  - unfold exit_status. fold (result (main w)).
    destruct (result (main w)) as [[]|c|e].
    + split; [by left|]. intros _. left. split; [done|by apply Hend].
    + rewrite (Hexit c eq_refl). split; [by right|done].
    + split; [by right|done].
  - rewrite Hmain. unfold exit_status. cbn [trace result fst snd].
    rewrite posted_app, Hquiet.
    destruct (post_to_x_posted w msg) as [[Hset Hposted]|[_ ->]];
      [|split; [by right|done]].
    rewrite Hposted. rewrite (post_to_x_with_credentials _ _ Hset).
    destruct (tweets_reply w msg) as [|code body answer] eqn:Hanswer;
      [split; [by right|done]|].
    destruct (Z.leb_spec 400 code); [split; [by right|done]|].
    split; [by left|]. intros _. right. by exists msg, code, body, answer.
Qed.

Lemma main_exit_status_witness :
  posted (trace (main world_unplayed)) = []
  ∧ (∃ tr, trace (main world_unplayed) = tr ++ [Printed nothing_to_post])
  ∨ (∃ (msg : pystr) code body answer,
       posted (trace (main world_unplayed)) = [msg]
       ∧ tweets_reply world_unplayed msg = Response code body answer
       ∧ code < 400).
Proof.
  apply (proj2 (main_exit_status world_unplayed)). by vm_compute.
Defined.

(** With the date and the team resolved, a game record fetched, the
    four credentials set and the post accepted, the script posts one text,
    the formatter's text of that game, and ends with exit status 0. *)
Theorem main_posts_formatted w ydate tid (g : game) code body answer :
  result (chicago_yesterday_date w) = Returned ydate →
  result (resolve_team_id w) = Returned tid →
  result (fetch_game_for w tid ydate) = Returned (Some (game_json g)) →
  credentials_set w →
  tweets_reply w (message_for g ydate tid) = Response code body answer →
  code < 400 →
  posted (trace (main w)) = [message_for g ydate tid]
  ∧ result (main w) = Returned ()
  ∧ exit_status (main w) = 0.
Proof.
  intros Hdate Hteam Hgame Hset Hanswer Hcode.
  destruct (fetch_game_for_shape w tid ydate) as (_ & Hquiet3 & _).
  destruct (resolve_team_id_shape w) as (_ & Hquiet2 & _).
  rewrite (main_formatted _ _ _ _ _ Hdate Hteam Hgame
             (format_tweet_message_for g ydate tid)).
  rewrite (post_to_x_with_credentials _ _ Hset), Hanswer.
  destruct (Z.leb_spec 400 code); [lia|]. unfold exit_status.
  cbn [trace result fst snd]. by rewrite !posted_app, Hquiet2, Hquiet3.
Qed.

Lemma main_posts_formatted_witness :
  posted (trace (main (world_posting env_credentials
                         (Response 201 [] (Some (Some (lit "1")))))))
  = [scenario_message (lit "Denver Nuggets") (lit "Nuggets")].
Proof.
  apply (main_posts_formatted
           (world_posting env_credentials
              (Response 201 [] (Some (Some (lit "1")))))
           (Date 2024 1 15) 25 over 201 [] (Some (Some (lit "1")))).
  - reflexivity.
  - reflexivity.
  - reflexivity.
  - repeat split.
  - reflexivity.
  - lia.
Defined.

(** With a game record fetched but the credentials not all set, the
    script makes its requests to the stats provider, posts nothing, and
    ends with the "missing credentials" line and exit status 1. *)
Theorem main_without_credentials w ydate tid (g : game) :
  result (chicago_yesterday_date w) = Returned ydate →
  result (resolve_team_id w) = Returned tid →
  result (fetch_game_for w tid ydate) = Returned (Some (game_json g)) →
  ¬ credentials_set w →
  main w =
    (trace (resolve_team_id w) ++ trace (fetch_game_for w tid ydate)
       ++ [Printed (lit "Missing one or more Twitter credentials in environment variables.")],
     Exited 1)
  ∧ posted (trace (main w)) = []
  ∧ exit_status (main w) = 1.
Proof.
  intros Hdate Hteam Hgame Hnot.
  destruct (fetch_game_for_shape w tid ydate) as (_ & Hquiet3 & _).
  destruct (resolve_team_id_shape w) as (_ & Hquiet2 & _).
  rewrite (main_formatted _ _ _ _ _ Hdate Hteam Hgame
             (format_tweet_message_for g ydate tid)).
  rewrite (post_to_x_without_credentials _ _ Hnot). unfold exit_status.
  cbn [trace result fst snd]. by rewrite !posted_app, Hquiet2, Hquiet3.
Qed.

Lemma main_without_credentials_witness :
  exit_status (main (world_posting env_empty_credential Unreachable)) = 1.
Proof.
  apply (main_without_credentials
           (world_posting env_empty_credential Unreachable)
           (Date 2024 1 15) 25 over).
  - reflexivity.
  - reflexivity.
  - reflexivity.
  - intros (_ & _ & _ & Hfourth). discriminate Hfourth.
Defined.

(** The fetcher reads an absent score as 0, the formatter does not: a
    first record with a completed status and both teams but no
    "home_team_score" is the game fetched, and the script then ends with
    an uncaught KeyError for that key, exit status 1 and nothing posted. *)
Theorem main_score_missing w ydate tid code body (game : Game.dict) rest
    (home away : Team.dict) :
  result (chicago_yesterday_date w) = Returned ydate →
  result (resolve_team_id w) = Returned tid →
  games_reply w tid ydate = Response code body (Some (game :: rest)) →
  passes code →
  lower (get (Game.status game) (lit "")) ∈ completed_statuses →
  Game.home_team game = Some home →
  Game.visitor_team game = Some away →
  Game.home_team_score game = None →
  result (fetch_game_for w tid ydate) = Returned (Some game)
  ∧ result (main w) = Raised (KeyError "home_team_score")
  ∧ exit_status (main w) = 1
  ∧ posted (trace (main w)) = [].
Proof.
  intros Hdate Hteam Hserved Hok Hstatus Hhome Haway Hscore.
  assert (Hgame : result (fetch_game_for w tid ydate) = Returned (Some game)).
  { rewrite (fetch_game_for_list _ _ _ _ _ _ _ Hserved Hok), scan_cons.
    rewrite decide_True; [done|by left]. }
  assert (Hfmt : format_tweet (Some game) ydate tid =
                   ([], Raised (KeyError "home_team_score"))).
  { unfold format_tweet. by rewrite Hhome, Haway, Hscore. }
  destruct (fetch_game_for_shape w tid ydate) as (_ & Hquiet3 & _).
  destruct (resolve_team_id_shape w) as (_ & Hquiet2 & _).
  rewrite (main_unformatted _ _ _ _ _ Hdate Hteam Hgame Hfmt).
  unfold exit_status. cbn [trace result fst snd].
  by rewrite posted_app, Hquiet2, Hquiet3.
Qed.

Lemma main_score_missing_witness :
  result (main (world_serving ∅ [team_json okc] [final_without_scores]))
  = Raised (KeyError "home_team_score").
Proof.
  apply (main_score_missing
           (world_serving ∅ [team_json okc] [final_without_scores])
           (Date 2024 1 15) 25 200 [] final_without_scores []
           (team_json okc) (team_json den)).
  - reflexivity.
  - reflexivity.
  - reflexivity.
  - unfold passes. lia.
  - apply (bool_decide_eq_true_1 (_ ∈ _)). vm_compute. reflexivity.
  - reflexivity.
  - reflexivity.
  - reflexivity.
Defined.

(** On a day whose only record is a game with level scores, for
    instance one that has not started, the script still posts, whatever
    the status of the record, and the text begins with "NO". *)
Theorem main_posts_unplayed w ydate tid (g : game) code body code' body' answer :
  result (chicago_yesterday_date w) = Returned ydate →
  result (resolve_team_id w) = Returned tid →
  games_reply w tid ydate = Response code body (Some [game_json g]) →
  passes code →
  game_home_score g = game_visitor_score g →
  credentials_set w →
  tweets_reply w (message_for g ydate tid) = Response code' body' answer →
  code' < 400 →
  posted (trace (main w)) = [message_for g ydate tid]
  ∧ lit "NO" `prefix_of` message_for g ydate tid.
Proof.
  intros Hdate Hteam Hserved Hok Hlevel Hset Hanswer Hcode.
  assert (Hgame : result (fetch_game_for w tid ydate)
                  = Returned (Some (game_json g))).
  { rewrite (fetch_game_for_list _ _ _ _ _ _ _ Hserved Hok), scan_cons.
    by case_decide. }
  destruct (fetch_game_for_shape w tid ydate) as (_ & Hquiet3 & _).
  destruct (resolve_team_id_shape w) as (_ & Hquiet2 & _).
  split.
  - rewrite (main_formatted _ _ _ _ _ Hdate Hteam Hgame
               (format_tweet_message_for g ydate tid)).
    cbn [trace fst]. rewrite !posted_app, Hquiet2, Hquiet3.
    destruct (post_to_x_posted w (message_for g ydate tid))
      as [[_ ->]|[Hnot _]]; done.
  - unfold message_for, template.
    replace (score_of_opponent g tid <? score_of_team g tid) with false.
    + apply (verdict_no false). reflexivity.
    + symmetry. apply Z.ltb_ge.
      unfold score_of_opponent, score_of_team. destruct (at_home g tid); lia.
Qed.

Lemma main_posts_unplayed_witness :
  posted (trace (main world_unplayed))
  = [lit "NO" ++ NL ++ NL ++ lit "Jan 15, 2024" ++ NL ++ lit "vs Denver Nuggets"
       ++ NL ++ lit "Thunder 0 " ++ EN_DASH ++ lit " 0 Nuggets"].
Proof.
  apply (main_posts_unplayed world_unplayed (Date 2024 1 15) 25 unplayed
           200 [] 201 [] (Some (Some (lit "1")))).
  - reflexivity.
  - reflexivity.
  - reflexivity.
  - unfold passes. lia.
  - reflexivity.
  - repeat split.
  - reflexivity.
  - lia.
Defined.

End OrchestratorEdges.
